(** * The timeline drawer interface: [qiskit.visualization.timeline.draw]

    A shallow embedding of [draw] from
    [qiskit/visualization/timeline/interface.py].

    [draw] is a driver: it resolves a stylesheet, configures a drawer canvas,
    hands the canvas to a plotter and returns the plotter's image.  All of its
    observable behaviour is the sequence of operations it performs on its
    collaborators (the stylesheet objects, the canvas, the plotter) together
    with the way it ends (a returned image or an exception).  The embedding
    therefore is a state-and-exception monad whose state holds

    - the store of stylesheet objects (Python dictionaries are mutable and
      passed by reference, so the caller's [style] is a location in it),
    - the state of the external collaborators, about which nothing is assumed,
    - the trace of the operations performed so far, in order. *)

From stdpp Require Import gmap strings list fin_maps.
From Stdlib Require Import ZArith.

Local Open Scope string_scope.
Local Open Scope list_scope.

(** ** Python values and exceptions *)

(** Values stored under the dotted keys of a stylesheet.  [draw] itself only
    ever writes booleans; every other value is opaque to it. *)
Inductive value : Type :=
| VNone
| VBool (b : bool)
| VInt (z : Z)
| VStr (s : string)
| VObj (id : nat).

(** The exception classes [draw] names, and all the others.  Of another
    class, what matters to [draw] is its name and whether it derives from
    [ImportError] (as [zipimport.ZipImportError] does). *)
Inductive exn_class : Type :=
| ImportError
| ModuleNotFoundError
| VisualizationError
| OtherError (name : string) (derives_from_ImportError : bool).

(** An exception instance: its class, its message and, when it was raised
    [from] another exception, the class and message of that [__cause__]. *)
Record pyexn : Type := PyExn {
  exn_cls : exn_class;
  exn_msg : string;
  exn_cause : option (exn_class * string)
}.

(** [except ImportError] catches the instances of [ImportError] and of
    every class that derives from it. *)
Definition isinstance_ImportError (e : pyexn) : bool :=
  match exn_cls e with
  | ImportError | ModuleNotFoundError => true
  | VisualizationError => false
  | OtherError _ derived => derived
  end.

Global Instance value_eq_dec : EqDecision value.
Proof. solve_decision. Defined.

Global Instance exn_class_eq_dec : EqDecision exn_class.
Proof. solve_decision. Defined.

(** ** Stylesheet objects *)

(** The classes of mapping a caller can pass as [style]: a raw dictionary or
    one of the preset stylesheet classes of the docstring; and the class of
    the per-call stylesheet that [draw] builds. *)
Inductive style_class : Type :=
| PyDict
| IQXStandard
| IQXSimple
| IQXDebugging
| QiskitTimelineStyle.

Global Instance style_class_eq_dec : EqDecision style_class.
Proof. solve_decision. Defined.

Record style_obj : Type := StyleObj {
  obj_class : style_class;
  obj_items : gmap string value
}.

(** Locations of stylesheet objects: indices into the store. *)
Definition loc : Type := nat.

(** Modelled from the spec: [types.LabelType]; the [types] module is not part
    of the source at hand.  [DELAY], [GATE_PARAM] and [GATE_NAME] are the
    members [draw] names; [BIT_NAME] stands for the lane label tag, which the
    spec lists as a label tag that [show_labels] leaves alone. *)
Inductive LabelType : Type :=
| DELAY
| GATE_PARAM
| GATE_NAME
| BIT_NAME.

Global Instance LabelType_eq_dec : EqDecision LabelType.
Proof. solve_decision. Defined.

(** Modelled from the spec: [types.Plotter.MPL.value]; the [types] module is
    not part of the source at hand.  The docstring of [draw] gives the name
    of the one plotter API as [mpl]. *)
Definition Plotter_MPL_value : string := "mpl".

(** The four control keys [draw] may overwrite. *)
Definition key_show_idle : string := "formatter.control.show_idle".
Definition key_show_clbits : string := "formatter.control.show_clbits".
Definition key_show_barriers : string := "formatter.control.show_barriers".
Definition key_show_delays : string := "formatter.control.show_delays".

(** Python's [str(x)] for an [Optional[str]], as [str.format] applies it. *)
Definition str_of_plotter (p : option string) : string :=
  match p with
  | Some s => s
  | None => "None"
  end.

(** ['Plotter API {name} is not supported.'.format(name=plotter)] *)
Definition unsupported_msg (p : option string) : string :=
  ("Plotter API " ++ str_of_plotter p ++ " is not supported.")%string.

Definition matplotlib_msg : string := "Must have Matplotlib installed.".

(** Truth value of an [Optional[str]]: [None] and the empty string are
    false. *)
Definition truthy_str (s : option string) : bool :=
  match s with
  | Some (String _ _) => true
  | _ => false
  end.

(** Substring test, used to read error messages. *)
Fixpoint is_prefix (p s : string) : bool :=
  match p, s with
  | EmptyString, _ => true
  | String a p', String b s' => if Ascii.eqb a b then is_prefix p' s' else false
  | String _ _, EmptyString => false
  end.

Fixpoint contains (needle hay : string) : bool :=
  is_prefix needle hay ||
  match hay with
  | EmptyString => false
  | String _ hay' => contains needle hay'
  end.

(** ** How a computation ends *)

Inductive result (A : Type) : Type :=
| Returned (a : A)
| Raised (e : pyexn)       (** a [raise] statement of [draw] itself *)
| Propagated (e : pyexn).  (** raised inside a collaborator, not caught *)

Arguments Returned {A} a.
Arguments Raised {A} e.
Arguments Propagated {A} e.

Definition is_Returned {A} (r : result A) : bool :=
  match r with Returned _ => true | _ => false end.

Module Timeline.

Section Embedding.

(** Opaque Python objects: the scheduled circuit, the bits, and arbitrary
    objects ([axis], the image a plotter returns). *)
Context {Program Bits Any : Type}.

(** The state of the collaborators: canvas, plotter, file system. *)
Context {World : Type}.

(** Calls that leave [draw] for code outside of [interface.py]. *)
Inductive call : Type :=
| DrawerCanvas (stylesheet : loc) (contents : style_obj)
| load_program (program : Program)
| set_time_range (t_start t_end : Z)
| set_disable_bits (bit : Bits) (remove : bool)
| set_disable_type (data_type : LabelType) (remove : bool)
| update
| import_MplPlotter
| MplPlotter (axis : option Any)
| plotter_draw
| save_file (filename : string)
| get_image.

(** Everything [draw] does, in order: operations on stylesheet objects and
    calls to the canvas and the plotter. *)
Inductive event : Type :=
| NewQiskitTimelineStyle (l : loc)
| NewIQXStandard (l : loc)
| StyleUpdate (self src : loc)
| StyleSetItem (self : loc) (key : string) (v : value)
| Call (c : call).

(** What the collaborators do is not in the source: each call is answered by
    an arbitrary handler, which may change the collaborators' state and either
    returns an object or raises. *)
Variable handler : call -> World -> World * (pyexn + Any).

(** Modelled from the spec: the [stylesheet] module, which is not part of the
    source at hand.  The spec describes the stylesheet as a flat mapping from
    dotted keys to values, filled with defaults, onto which [update] merges a
    mapping (the merged entries win) and which may reject a mapping with a
    configuration error.  [default_style] and [IQXStandard_style] are the
    initial contents of a [QiskitTimelineStyle()] and of an [IQXStandard()];
    [validate_style] is the check [update] applies to the mapping it is
    given ([None]: accepted). *)
Variable default_style : gmap string value.
Variable IQXStandard_style : gmap string value.
Variable validate_style : gmap string value -> option pyexn.

Record state : Type := State {
  heap : list style_obj;
  world : World;
  trace : list event
}.

(** ** The monad *)

Definition M (A : Type) : Type := state -> state * result A.

Definition ret {A} (a : A) : M A := fun s => (s, Returned a).

Definition bind {A B} (m : M A) (k : A -> M B) : M B :=
  fun s =>
    match m s with
    | (s', Returned a) => k a s'
    | (s', Raised e) => (s', Raised e)
    | (s', Propagated e) => (s', Propagated e)
    end.

Notation "x <- m ;; k" := (bind m (fun x => k))
  (at level 100, m at next level, right associativity, only parsing).
Notation "m ;;; k" := (bind m (fun _ => k))
  (at level 100, right associativity, only parsing).

Definition raise {A} (e : pyexn) : M A := fun s => (s, Raised e).
Definition propagate {A} (e : pyexn) : M A := fun s => (s, Propagated e).

(** [try: body except <catches> as ex: handle ex] *)
Definition try_except {A} (body : M A) (catches : pyexn -> bool)
    (handle : pyexn -> M A) : M A :=
  fun s =>
    match body s with
    | (s', Returned a) => (s', Returned a)
    | (s', Raised ex) =>
        if catches ex then handle ex s' else (s', Raised ex)
    | (s', Propagated ex) =>
        if catches ex then handle ex s' else (s', Propagated ex)
    end.

(** [for x in xs: body x] *)
Fixpoint for_each {A} (xs : list A) (body : A -> M unit) : M unit :=
  match xs with
  | [] => ret tt
  | x :: xs' => body x ;;; for_each xs' body
  end.

Definition log (ev : event) : M unit :=
  fun s => (State (heap s) (world s) (trace s ++ [ev]), Returned tt).

(** A call to a collaborator: recorded, then answered by the handler. *)
Definition invoke (c : call) : M Any :=
  fun s =>
    let '(w, r) := handler c (world s) in
    let s' := State (heap s) w (trace s ++ [Call c]) in
    match r with
    | inl e => (s', Propagated e)
    | inr v => (s', Returned v)
    end.

(** A call whose returned object is dropped. *)
Definition invoke_ (c : call) : M unit := invoke c ;;; ret tt.

(** ** Stylesheet objects in the store *)

Definition items_at (h : list style_obj) (l : loc) : gmap string value :=
  match h !! l with
  | Some o => obj_items o
  | None => ∅
  end.

Definition obj_at (h : list style_obj) (l : loc) : style_obj :=
  match h !! l with
  | Some o => o
  | None => StyleObj PyDict ∅
  end.

Definition alloc (o : style_obj) : M loc :=
  fun s =>
    (State (heap s ++ [o]) (world s) (trace s), Returned (length (heap s))).

(** [stylesheet.QiskitTimelineStyle()] *)
Definition new_QiskitTimelineStyle : M loc :=
  l <- alloc (StyleObj QiskitTimelineStyle default_style) ;;
  log (NewQiskitTimelineStyle l) ;;;
  ret l.

(** [stylesheet.IQXStandard()] *)
Definition new_IQXStandard : M loc :=
  l <- alloc (StyleObj IQXStandard IQXStandard_style) ;;
  log (NewIQXStandard l) ;;;
  ret l.

(** Truth value of the [style] argument: [None] is false, and a mapping is
    false exactly when it has no entries. *)
Definition truthy_style (h : list style_obj) (style : option loc) : bool :=
  match style with
  | Some l => negb (bool_decide (items_at h l = ∅))
  | None => false
  end.

(** The caller's [style], when given, is an object of the store. *)
Definition style_in_store (h : list style_obj) (style : option loc) : bool :=
  match style with
  | Some l => bool_decide (l < length h)
  | None => true
  end.

(** [self.update(src)]: every entry of [src] is written into [self]. *)
Definition style_update (self src : loc) : M unit :=
  log (StyleUpdate self src) ;;;
  fun s =>
    let m := items_at (heap s) src in
    match validate_style m with
    | Some e => (s, Propagated e)
    | None =>
        (State (alter (fun o => StyleObj (obj_class o) (m ∪ obj_items o))
                      self (heap s))
               (world s) (trace s),
         Returned tt)
    end.

(** [self[key] = v] *)
Definition style_setitem (self : loc) (key : string) (v : value) : M unit :=
  log (StyleSetItem self key v) ;;;
  fun s =>
    (State (alter (fun o => StyleObj (obj_class o) (<[key:=v]> (obj_items o)))
                  self (heap s))
           (world s) (trace s),
     Returned tt).

(** [core.DrawerCanvas(stylesheet=temp_style)]: the canvas receives the
    stylesheet object; the call records what the object holds at that
    moment. *)
Definition new_DrawerCanvas (stylesheet : loc) : M unit :=
  fun s => invoke_ (DrawerCanvas stylesheet (obj_at (heap s) stylesheet)) s.

(** ** [draw] *)

Record draw_args : Type := DrawArgs {
  program : Program;
  style : option loc;
  time_range : option (Z * Z);
  disable_bits : option (list Bits);
  show_clbits : option bool;
  show_idle : option bool;
  show_barriers : option bool;
  show_delays : option bool;
  show_labels : bool;
  plotter : option string;
  axis : option Any;
  filename : option string
}.

(** [if flag is not None: temp_style[key] = flag] *)
Definition override_control (temp_style : loc) (key : string)
    (flag : option bool) : M unit :=
  match flag with
  | Some b => style_setitem temp_style key (VBool b)
  | None => ret tt
  end.

(** [style or stylesheet.IQXStandard()]: the preset is only built when
    [style] is false. *)
Definition style_or_IQXStandard (style : option loc) : M loc :=
  fun s =>
    match style with
    | Some l =>
        if truthy_style (heap s) style then ret l s else new_IQXStandard s
    | None => new_IQXStandard s
    end.

(** Lines 342-357: "update stylesheet" and "update control properties". *)
Definition resolve_style (a : draw_args) : M loc :=
  temp_style <- new_QiskitTimelineStyle ;;
  src <- style_or_IQXStandard (style a) ;;
  style_update temp_style src ;;;
  override_control temp_style key_show_idle (show_idle a) ;;;
  override_control temp_style key_show_clbits (show_clbits a) ;;;
  override_control temp_style key_show_barriers (show_barriers a) ;;;
  override_control temp_style key_show_delays (show_delays a) ;;;
  ret temp_style.

(** The label types [show_labels=False] removes, in the order of the
    source. *)
Definition labels : list LabelType := [DELAY; GATE_PARAM; GATE_NAME].

(** Lines 359-384: "create empty canvas and load program" and "update
    configuration", up to and including [canvas.update()]. *)
Definition configure_canvas (a : draw_args) (temp_style : loc) : M unit :=
  new_DrawerCanvas temp_style ;;;
  invoke_ (load_program (program a)) ;;;
  match time_range a with
  | Some (t0, t1) => invoke_ (set_time_range t0 t1)
  | None => ret tt
  end ;;;
  match disable_bits a with
  | Some ((_ :: _) as bits) =>
      for_each bits (fun bit => invoke_ (set_disable_bits bit true))
  | _ => ret tt
  end ;;;
  (if negb (show_labels a)
   then for_each labels (fun label => invoke_ (set_disable_type label true))
   else ret tt) ;;;
  invoke_ update.

(** Lines 390-399: "Call plotter API and generate image". *)
Definition call_plotter (a : draw_args) : M unit :=
  if bool_decide (plotter a = Some Plotter_MPL_value) then
    try_except (invoke_ import_MplPlotter) isinstance_ImportError
      (fun ex =>
         raise (PyExn ImportError matplotlib_msg
                      (Some (exn_cls ex, exn_msg ex)))) ;;;
    invoke_ (MplPlotter (axis a)) ;;;
    invoke_ plotter_draw
  else
    raise (PyExn VisualizationError (unsupported_msg (plotter a)) None).

(** Lines 401-405: "save figure" and the returned image. *)
Definition save_and_return (a : draw_args) : M Any :=
  match filename a with
  | Some ((String _ _) as name) => invoke_ (save_file name)
  | _ => ret tt
  end ;;;
  invoke get_image.

(** Lines 342-384: everything up to the finalized canvas. *)
Definition prepare_canvas (a : draw_args) : M unit :=
  temp_style <- resolve_style a ;;
  configure_canvas a temp_style.

Definition draw (a : draw_args) : M Any :=
  prepare_canvas a ;;;
  call_plotter a ;;;
  save_and_return a.

(** Lines 342-399: [draw] up to and including the rendering. *)
Definition render (a : draw_args) : M unit :=
  prepare_canvas a ;;;
  call_plotter a.

(** The same call with another [style] argument. *)
Definition with_style (a : draw_args) (st : option loc) : draw_args :=
  DrawArgs (program a) st (time_range a) (disable_bits a) (show_clbits a)
           (show_idle a) (show_barriers a) (show_delays a) (show_labels a)
           (plotter a) (axis a) (filename a).

(** ** The pipeline, step by step

    The steps of one call, written down in the order in which the interface
    contract lists them: the style is resolved and the per-call overrides are
    applied; the canvas is created, loads the program and is configured;
    [update] finalizes it; the plotter is selected and invoked; the image is
    optionally saved, and returned.  The theorems below compare the trace of
    [draw] with these lists. *)

(** The mapping merged into the per-call stylesheet: the caller's, or the
    standard preset when the caller's is missing or empty. *)
Definition source_items (h : list style_obj) (style : option loc)
    : gmap string value :=
  match style with
  | Some l => if truthy_style h style then items_at h l else IQXStandard_style
  | None => IQXStandard_style
  end.

(** The preset object built on the way, if any. *)
Definition preset_objs (h : list style_obj) (style : option loc)
    : list style_obj :=
  if truthy_style h style then [] else [StyleObj IQXStandard IQXStandard_style].

(** The resolved per-call style, before the control flags are applied. *)
Definition resolved_style (h : list style_obj) (a : draw_args)
    : gmap string value :=
  source_items h (style a) ∪ default_style.

Definition apply_override (key : string) (flag : option bool)
    (m : gmap string value) : gmap string value :=
  match flag with
  | Some b => <[key:=VBool b]> m
  | None => m
  end.

(** The effective configuration: the resolved style with the four overrides. *)
Definition effective_style (h : list style_obj) (a : draw_args)
    : gmap string value :=
  apply_override key_show_delays (show_delays a)
    (apply_override key_show_barriers (show_barriers a)
       (apply_override key_show_clbits (show_clbits a)
          (apply_override key_show_idle (show_idle a) (resolved_style h a)))).

Definition override_events (t : loc) (key : string) (flag : option bool)
    : list event :=
  match flag with
  | Some b => [StyleSetItem t key (VBool b)]
  | None => []
  end.

(** Resolution of the style up to and including the merge; [t] is the
    location of the new per-call stylesheet. *)
Definition merge_events (h : list style_obj) (a : draw_args) : list event :=
  let t := length h in
  NewQiskitTimelineStyle t ::
  match style a with
  | Some l =>
      if truthy_style h (style a) then [StyleUpdate t l]
      else [NewIQXStandard (S t); StyleUpdate t (S t)]
  | None => [NewIQXStandard (S t); StyleUpdate t (S t)]
  end.

Definition style_events (h : list style_obj) (a : draw_args) : list event :=
  let t := length h in
  merge_events h a ++
  override_events t key_show_idle (show_idle a) ++
  override_events t key_show_clbits (show_clbits a) ++
  override_events t key_show_barriers (show_barriers a) ++
  override_events t key_show_delays (show_delays a).

(** The per-call configuration setters. *)
Definition time_range_calls (a : draw_args) : list call :=
  match time_range a with
  | Some (t0, t1) => [set_time_range t0 t1]
  | None => []
  end.

Definition disable_bits_calls (a : draw_args) : list call :=
  match disable_bits a with
  | Some bits => (fun bit => set_disable_bits bit true) <$> bits
  | None => []
  end.

Definition label_calls (a : draw_args) : list call :=
  if show_labels a then []
  else (fun label => set_disable_type label true) <$> labels.

Definition setter_calls (a : draw_args) : list call :=
  time_range_calls a ++ disable_bits_calls a ++ label_calls a.

(** The canvas stage, for the stylesheet object [o] at location [t]. *)
Definition canvas_calls_for (t : loc) (o : style_obj) (a : draw_args)
    : list call :=
  [DrawerCanvas t o; load_program (program a)] ++
  setter_calls a ++
  [update].

Definition canvas_calls (h : list style_obj) (a : draw_args) : list call :=
  canvas_calls_for (length h)
    (StyleObj QiskitTimelineStyle (effective_style h a)) a.

Definition plotter_calls (a : draw_args) : list call :=
  [import_MplPlotter; MplPlotter (axis a); plotter_draw].

Definition save_calls (a : draw_args) : list call :=
  match filename a with
  | Some name => if truthy_str (filename a) then [save_file name] else []
  | None => []
  end.

Definition finish_calls (a : draw_args) : list call :=
  save_calls a ++ [get_image].

(** Everything before the plotter is selected. *)
Definition canvas_events (h : list style_obj) (a : draw_args) : list event :=
  style_events h a ++ (Call <$> canvas_calls h a).

(** The whole pipeline of a call that selects the Matplotlib plotter. *)
Definition pipeline_events (h : list style_obj) (a : draw_args) : list event :=
  canvas_events h a ++ (Call <$> plotter_calls a) ++ (Call <$> finish_calls a).

(** The longest trace a call can leave. *)
Definition expected_events (h : list style_obj) (a : draw_args) : list event :=
  if bool_decide (plotter a = Some Plotter_MPL_value)
  then pipeline_events h a
  else canvas_events h a.

(** The [set_disable_type] calls of a trace, in order. *)
Definition disabled_types (tr : list event) : list (LabelType * bool) :=
  omap (fun ev =>
          match ev with
          | Call (set_disable_type ty rm) => Some (ty, rm)
          | _ => None
          end) tr.

(** The canvases created in a trace: location and contents of the
    stylesheet each was given. *)
Definition canvases (tr : list event) : list (loc * style_obj) :=
  omap (fun ev =>
          match ev with
          | Call (DrawerCanvas l o) => Some (l, o)
          | _ => None
          end) tr.

(** The [save_file] calls of a trace, in order. *)
Definition saved_files (tr : list event) : list string :=
  omap (fun ev =>
          match ev with
          | Call (save_file name) => Some name
          | _ => None
          end) tr.

(** The calls of a trace that belong to the plotter side: the import, the
    construction of the plotter, rendering, saving and fetching the image. *)
Definition is_plotter_event (ev : event) : bool :=
  match ev with
  | Call import_MplPlotter | Call (MplPlotter _) | Call plotter_draw
  | Call (save_file _) | Call get_image => true
  | _ => false
  end.

(** The part of the final trace that the run added to the trace of [s]. *)
Definition new_events (s s' : state) : list event :=
  drop (length (trace s)) (trace s').

(** A computation run from [s] performs the operations [evs], in this
    order, and stops early only by not returning. *)
Definition emits {A} (m : M A) (s : state) (evs : list event) : Prop :=
  exists t,
    trace (m s).1 = trace s ++ t /\
    t `prefix_of` evs /\
    (is_Returned (m s).2 = true -> t = evs).

(** A computation executes no [raise] statement of its own: it returns, or
    an exception of a collaborator passes through it. *)
Definition only_propagates {A} (m : M A) : Prop :=
  forall s e, (m s).2 <> Raised e.

(** A computation leaves the store of stylesheet objects alone. *)
Definition keeps_heap {A} (m : M A) : Prop :=
  forall s, heap (m s).1 = heap s.

(** ** Further readings of a call and of its trace *)

(** The same call with another [disable_bits] argument. *)
Definition with_disable_bits (a : draw_args) (bits : option (list Bits))
    : draw_args :=
  DrawArgs (program a) (style a) (time_range a) bits (show_clbits a)
           (show_idle a) (show_barriers a) (show_delays a) (show_labels a)
           (plotter a) (axis a) (filename a).

(** The same call with another [filename] argument. *)
Definition with_filename (a : draw_args) (name : option string) : draw_args :=
  DrawArgs (program a) (style a) (time_range a) (disable_bits a)
           (show_clbits a) (show_idle a) (show_barriers a) (show_delays a)
           (show_labels a) (plotter a) (axis a) name.

(** The configuration setter calls of a trace, in order. *)
Definition setters (tr : list event) : list call :=
  omap (fun ev =>
          match ev with
          | Call (set_time_range t0 t1) => Some (set_time_range t0 t1)
          | Call (set_disable_bits bit rm) => Some (set_disable_bits bit rm)
          | Call (set_disable_type ty rm) => Some (set_disable_type ty rm)
          | _ => None
          end) tr.

(** The calls to collaborators of a trace, in order. *)
Definition calls (tr : list event) : list call :=
  omap (fun ev => match ev with Call c => Some c | _ => None end) tr.

(** The collaborators' answers to a sequence of calls made one after the
    other from the state [w]: the state they end in, the exception of the
    first call that raises, if one does, and the calls that come after it in
    the sequence. *)
Fixpoint replay (cs : list call) (w : World)
    : World * option pyexn * list call :=
  match cs with
  | [] => (w, None, [])
  | c :: cs' =>
      match handler c w with
      | (w', inl e) => (w', Some e, cs')
      | (w', inr _) => replay cs' w'
      end
  end.

Definition import_is_last (cs : list call) : bool :=
  match last cs with
  | Some import_MplPlotter => true
  | _ => false
  end.

(** A result without its value. *)
Definition erase {A} (r : result A) : result unit :=
  match r with
  | Returned _ => Returned tt
  | Raised e => Raised e
  | Propagated e => Propagated e
  end.

(** How a computation that made the calls [cs] may end, when [o] is what
    the collaborators answered: after a call that raised, with that
    exception, or, if the call was the import and the exception an
    [ImportError], with the [ImportError] of [draw] chained to it; after
    calls that all returned, in any way but with an exception passing
    through, unless the stylesheet rejected the mapping with it. *)
Definition ends_as (cs : list call) (o : option pyexn) (r : result unit)
    : Prop :=
  match o with
  | Some ex =>
      r = if import_is_last cs && isinstance_ImportError ex
          then Raised (PyExn ImportError matplotlib_msg
                             (Some (exn_cls ex, exn_msg ex)))
          else Propagated ex
  | None => forall e, r = Propagated e -> exists m, validate_style m = Some e
  end.

(** A computation makes its calls one after the other, stops at the first
    that raises, and ends accordingly. *)
Definition tracks {A} (m : M A) : Prop :=
  forall s, exists t o,
    trace (m s).1 = trace s ++ t /\
    replay (calls t) (world s) = (world (m s).1, o, []) /\
    ends_as (calls t) o (erase (m s).2).

End Embedding.

End Timeline.

Import Timeline.

(** ** Concrete collaborators

    Small instances of the collaborators, on which [draw] can be run.
    Programs, bits and objects are numbered; the state of the collaborators
    counts the calls they have answered. *)
Module Example.

Definition Obj : Type := nat.

Definition ecall : Type := @call Obj Obj Obj.

(** Every call succeeds; [get_image] returns object 7. *)
Definition ok_handler (c : ecall) (w : nat) : nat * (pyexn + Obj) :=
  (S w, inr (match c with get_image => 7 | _ => 0 end)).

(** Matplotlib is not installed: importing the plotter fails. *)
Definition no_mpl_handler (c : ecall) (w : nat) : nat * (pyexn + Obj) :=
  match c with
  | import_MplPlotter =>
      (S w, inl (PyExn ModuleNotFoundError "No module named 'matplotlib'" None))
  | _ => ok_handler c w
  end.

Definition defaults : gmap string value :=
  {[ key_show_idle := VBool true;
     key_show_clbits := VBool true;
     key_show_barriers := VBool true;
     key_show_delays := VBool true;
     "formatter.general.fig_width" := VInt 14 ]}.

Definition standard : gmap string value :=
  {[ "formatter.general.fig_width" := VInt 14;
     key_show_idle := VBool false;
     "generator.gates" := VObj 1 ]}.

Definition accept_all (m : gmap string value) : option pyexn := None.

(** The caller's store: a raw dictionary at 0, an empty dictionary at 1 and
    a preset stylesheet object at 2. *)
Definition store : list style_obj :=
  [ StyleObj PyDict {[ "formatter.general.fig_width" := VInt 16;
                       key_show_clbits := VBool false ]};
    StyleObj PyDict ∅;
    StyleObj IQXSimple {[ key_show_idle := VBool false ]} ].

Definition s0 : @state Obj Obj Obj nat := State store 0 [].

(** [draw(qc)] *)
Definition plain : @draw_args Obj Obj Obj :=
  DrawArgs 1 None None None None None None None true
           (Some Plotter_MPL_value) None None.

(** A call that uses every argument. *)
Definition full : @draw_args Obj Obj Obj :=
  DrawArgs 1 (Some 0) (Some (0, 100)%Z) (Some [3; 4]) (Some false) (Some true)
           None (Some false) false (Some Plotter_MPL_value) (Some 9)
           (Some "out.png").

(** The same call with a plotter name that is not registered. *)
Definition unknown_plotter : @draw_args Obj Obj Obj :=
  DrawArgs 1 (Some 0) (Some (0, 100)%Z) (Some [3; 4]) (Some false) (Some true)
           None (Some false) false (Some "svg2") (Some 9) (Some "out.png").

(** [draw(qc, style={})] *)
Definition empty_style : @draw_args Obj Obj Obj :=
  DrawArgs 1 (Some 1) None None None None None None true
           (Some Plotter_MPL_value) None None.

(** [draw(qc, style=IQXSimple(), show_barriers=False)] *)
Definition preset_style : @draw_args Obj Obj Obj :=
  DrawArgs 1 (Some 2) None None None None (Some false) None true
           (Some Plotter_MPL_value) None None.

Definition run (h : ecall -> nat -> nat * (pyexn + Obj))
    (a : @draw_args Obj Obj Obj) : state * result Obj :=
  draw h defaults standard accept_all a s0.

(** [draw(qc, disable_bits=[], filename='')] *)
Definition falsy_optionals : @draw_args Obj Obj Obj :=
  DrawArgs 1 None None (Some []) None None None None true
           (Some Plotter_MPL_value) None (Some "").

(** The plotter module is there but breaks while it is imported. *)
Definition broken_import_handler (c : ecall) (w : nat)
    : nat * (pyexn + Obj) :=
  match c with
  | import_MplPlotter =>
      (S w, inl (PyExn (OtherError "RuntimeError" false) "backend failed" None))
  | _ => ok_handler c w
  end.

(** The plotter module is found in an archive that cannot be read. *)
Definition zip_import_handler (c : ecall) (w : nat) : nat * (pyexn + Obj) :=
  match c with
  | import_MplPlotter =>
      (S w, inl (PyExn (OtherError "zipimport.ZipImportError" true)
                       "bad archive" None))
  | _ => ok_handler c w
  end.

(** The file cannot be written. *)
Definition save_fails_handler (c : ecall) (w : nat) : nat * (pyexn + Obj) :=
  match c with
  | save_file _ =>
      (S w, inl (PyExn (OtherError "PermissionError" false) "out.png" None))
  | _ => ok_handler c w
  end.

(** The program was never scheduled: loading it fails. *)
Definition load_fails_handler (c : ecall) (w : nat) : nat * (pyexn + Obj) :=
  match c with
  | load_program _ =>
      (S w, inl (PyExn VisualizationError "no scheduling information" None))
  | _ => ok_handler c w
  end.

End Example.

(** * Properties *)

Section Properties.

Context {Program Bits Any World : Type}.
Local Abbreviation call := (@call Program Bits Any).
Local Abbreviation state := (@state Program Bits Any World).
Local Abbreviation event := (@event Program Bits Any).
Local Abbreviation draw_args := (@draw_args Program Bits Any).
Local Abbreviation M := (@M Program Bits Any World).

Variable handler : call -> World -> World * (pyexn + Any).
Variable default_style : gmap string value.
Variable IQXStandard_style : gmap string value.
Variable validate_style : gmap string value -> option pyexn.

Local Abbreviation invoke := (invoke handler).
Local Abbreviation invoke_ := (invoke_ handler).
Local Abbreviation resolve_style :=
  (resolve_style default_style IQXStandard_style validate_style).
Local Abbreviation configure_canvas := (configure_canvas handler).
Local Abbreviation prepare_canvas :=
  (prepare_canvas handler default_style IQXStandard_style validate_style).
Local Abbreviation call_plotter := (call_plotter handler).
Local Abbreviation save_and_return := (save_and_return handler).
Local Abbreviation draw :=
  (draw handler default_style IQXStandard_style validate_style).
Local Abbreviation source_items := (source_items IQXStandard_style).
Local Abbreviation preset_objs := (preset_objs IQXStandard_style).
Local Abbreviation resolved_style := (resolved_style default_style IQXStandard_style).
Local Abbreviation effective_style := (effective_style default_style IQXStandard_style).
Local Abbreviation emits := (@emits Program Bits Any World).
Local Abbreviation only_propagates := (@only_propagates Program Bits Any World).
Local Abbreviation render :=
  (render handler default_style IQXStandard_style validate_style).
Local Abbreviation keeps_heap := (@keeps_heap Program Bits Any World).
Local Abbreviation replay := (replay handler).
Local Abbreviation ends_as := (ends_as validate_style).
Local Abbreviation tracks := (tracks handler validate_style).
Local Abbreviation canvas_calls := (canvas_calls default_style IQXStandard_style).
Local Abbreviation canvas_events := (canvas_events default_style IQXStandard_style).
Local Abbreviation pipeline_events := (pipeline_events default_style IQXStandard_style).
Local Abbreviation expected_events := (expected_events default_style IQXStandard_style).

(** ** The style stage in closed form *)

Lemma truthy_style_lookup (h : list style_obj) (l : loc) :
  truthy_style h (Some l) = true -> l < length h.
Proof.
  unfold truthy_style, items_at. intros Ht.
  destruct (h !! l) as [o|] eqn:Hl.
  - by eapply lookup_lt_Some.
  - rewrite bool_decide_eq_true_2 in Ht; done.
Qed.

Lemma items_at_app_l (h h' : list style_obj) (l : loc) :
  l < length h -> items_at (h ++ h') l = items_at h l.
Proof. intros Hl. unfold items_at. by rewrite lookup_app_l. Qed.

Lemma alter_fresh (f : style_obj -> style_obj) (h : list style_obj)
    (o : style_obj) (rest : list style_obj) :
  alter f (length h) (h ++ o :: rest) = h ++ f o :: rest.
Proof.
  replace (length h) with (length h + 0) by lia.
  by rewrite alter_app_r.
Qed.

Lemma override_control_run (key : string) (flag : option bool)
    (h : list style_obj) (m : gmap string value) (rest : list style_obj)
    (w : World) (tr : list event) :
  override_control (length h) key flag
    (State (h ++ StyleObj QiskitTimelineStyle m :: rest) w tr) =
  (State (h ++ StyleObj QiskitTimelineStyle (apply_override key flag m) :: rest)
         w (tr ++ override_events (length h) key flag),
   Returned tt).
Proof.
  destruct flag as [b|]; simpl.
  - unfold style_setitem, bind, log; simpl. by rewrite alter_fresh.
  - unfold ret. by rewrite app_nil_r.
Qed.

Lemma truthy_style_app (h h' : list style_obj) (style : option loc) :
  style_in_store h style = true ->
  truthy_style (h ++ h') style = truthy_style h style.
Proof.
  destruct style as [l|]; simpl; [|done].
  intros Hl%bool_decide_eq_true. by rewrite items_at_app_l.
Qed.

Lemma items_at_fresh (h : list style_obj) (o : style_obj)
    (rest : list style_obj) :
  items_at (h ++ o :: rest) (length h) = obj_items o.
Proof.
  unfold items_at. by rewrite list_lookup_middle.
Qed.

Lemma items_at_fresh_S (h : list style_obj) (o o' : style_obj) :
  items_at (h ++ [o; o']) (S (length h)) = obj_items o'.
Proof.
  unfold items_at.
  replace (h ++ [o; o']) with ((h ++ [o]) ++ o' :: []) by by rewrite <- app_assoc.
  rewrite list_lookup_middle; [done|]. rewrite length_app; simpl; lia.
Qed.

(** The four overrides in a row, on the fresh stylesheet. *)
Lemma overrides_run (a : draw_args) (h : list style_obj)
    (m : gmap string value) (rest : list style_obj) (w : World)
    (tr : list event) :
  bind (override_control (length h) key_show_idle (show_idle a))
    (fun _ =>
     bind (override_control (length h) key_show_clbits (show_clbits a))
       (fun _ =>
        bind (override_control (length h) key_show_barriers (show_barriers a))
          (fun _ =>
           bind (override_control (length h) key_show_delays (show_delays a))
             (fun _ => ret (length h)))))
    (State (h ++ StyleObj QiskitTimelineStyle m :: rest) w tr) =
  (State (h ++
            StyleObj QiskitTimelineStyle
              (apply_override key_show_delays (show_delays a)
                 (apply_override key_show_barriers (show_barriers a)
                    (apply_override key_show_clbits (show_clbits a)
                       (apply_override key_show_idle (show_idle a) m)))) ::
            rest)
         w
         (tr ++
          override_events (length h) key_show_idle (show_idle a) ++
          override_events (length h) key_show_clbits (show_clbits a) ++
          override_events (length h) key_show_barriers (show_barriers a) ++
          override_events (length h) key_show_delays (show_delays a)),
   Returned (length h)).
Proof.
  unfold bind at 1. rewrite override_control_run.
  unfold bind at 1. rewrite override_control_run.
  unfold bind at 1. rewrite override_control_run.
  unfold bind at 1. rewrite override_control_run.
  unfold ret. by rewrite <- !app_assoc.
Qed.

Lemma style_update_run (h : list style_obj) (o : style_obj)
    (rest : list style_obj) (src : loc) (w : World) (tr : list event) :
  style_update validate_style (length h) src (State (h ++ o :: rest) w tr) =
  match validate_style (items_at (h ++ o :: rest) src) with
  | None =>
      (State (h ++
                StyleObj (obj_class o)
                  (items_at (h ++ o :: rest) src ∪ obj_items o) :: rest)
             w (tr ++ [StyleUpdate (length h) src]),
       Returned tt)
  | Some e =>
      (State (h ++ o :: rest) w (tr ++ [StyleUpdate (length h) src]),
       Propagated e)
  end.
Proof.
  unfold style_update, bind, log; simpl.
  destruct (validate_style _); [done|]. by rewrite alter_fresh.
Qed.

Lemma resolve_style_run (a : draw_args) (s : state) :
  style_in_store (heap s) (style a) = true ->
  resolve_style a s =
  match validate_style (source_items (heap s) (style a)) with
  | None =>
      (State (heap s ++
                StyleObj QiskitTimelineStyle (effective_style (heap s) a) ::
                preset_objs (heap s) (style a))
             (world s) (trace s ++ style_events (heap s) a),
       Returned (length (heap s)))
  | Some e =>
      (State (heap s ++
                StyleObj QiskitTimelineStyle default_style ::
                preset_objs (heap s) (style a))
             (world s) (trace s ++ merge_events (heap s) a),
       Propagated e)
  end.
Proof.
  intros Hwf.
  unfold resolve_style, new_QiskitTimelineStyle, alloc, style_or_IQXStandard.
  unfold bind at 1 2 3 4. simpl.
  unfold effective_style, resolved_style, source_items, preset_objs,
    style_events, merge_events.
  rewrite (truthy_style_app _ _ _ Hwf).
  destruct (style a) as [l|] eqn:Hst.
  - destruct (truthy_style _ (Some l)) eqn:Ht.
    + unfold ret. unfold bind at 1.
      rewrite style_update_run.
      rewrite items_at_app_l by by apply truthy_style_lookup.
      destruct (validate_style _) as [e|]; simpl.
      * by rewrite <- !app_assoc.
      * rewrite overrides_run. by rewrite <- !app_assoc.
    + unfold new_IQXStandard, alloc, bind at 1 2 3, log, ret; simpl.
      rewrite <- !app_assoc; simpl. rewrite length_app; simpl.
      replace (length (heap s) + 1) with (S (length (heap s))) by lia.
      rewrite style_update_run, items_at_fresh_S; simpl.
      destruct (validate_style _) as [e|]; simpl.
      * by rewrite <- !app_assoc.
      * rewrite overrides_run. by rewrite <- !app_assoc.
  - unfold new_IQXStandard, alloc, bind at 1 2 3, log, ret; simpl.
    rewrite <- !app_assoc; simpl. rewrite length_app; simpl.
    replace (length (heap s) + 1) with (S (length (heap s))) by lia.
    rewrite style_update_run, items_at_fresh_S; simpl.
    destruct (validate_style _) as [e|]; simpl.
    + by rewrite <- !app_assoc.
    + rewrite overrides_run. by rewrite <- !app_assoc.
Qed.

(** ** Traces of composed computations *)

Lemma emits_ret {A} (x : A) (s : state) : emits (ret x) s [].
Proof. exists []. by rewrite app_nil_r. Qed.

Lemma emits_raise {A} (e : pyexn) (s : state) : emits (@raise _ _ _ _ A e) s [].
Proof. exists []. by rewrite app_nil_r. Qed.

Lemma emits_invoke (c : call) (s : state) : emits (invoke c) s [Call c].
Proof.
  exists [Call c]. unfold Timeline.invoke.
  destruct (handler c (world s)) as [w [e|v]]; done.
Qed.

Lemma emits_bind {A B} (m : M A) (k : A -> M B) (s : state)
    (e1 e2 : list event) :
  emits m s e1 ->
  (forall x s1, m s = (s1, Returned x) -> emits (k x) s1 e2) ->
  emits (bind m k) s (e1 ++ e2).
Proof.
  intros (t1 & Ht1 & Hp1 & Hr1) Hk. unfold emits, bind.
  destruct (m s) as [s1 [x|e|e]] eqn:Hm; simpl in *.
  - destruct (Hk x s1 eq_refl) as (t2 & Ht2 & Hp2 & Hr2).
    rewrite (Hr1 eq_refl) in Ht1.
    exists (e1 ++ t2). rewrite Ht2, Ht1, <- app_assoc.
    split; [done|]. split; [by apply prefix_app|].
    intros Hr. by rewrite (Hr2 Hr).
  - exists t1. split; [done|]. split; [by apply prefix_app_r|done].
  - exists t1. split; [done|]. split; [by apply prefix_app_r|done].
Qed.

Lemma emits_cons {A B} (m : M A) (k : A -> M B) (s : state)
    (ev : event) (e2 : list event) :
  emits m s [ev] ->
  (forall x s1, m s = (s1, Returned x) -> emits (k x) s1 e2) ->
  emits (bind m k) s (ev :: e2).
Proof. apply (emits_bind m k s [ev] e2). Qed.

Lemma emits_invoke_ (c : call) (s : state) : emits (invoke_ c) s [Call c].
Proof.
  apply emits_cons; [apply emits_invoke|]. intros. apply emits_ret.
Qed.

Lemma emits_for_each {X} (f : X -> call) (xs : list X) (s : state) :
  emits (for_each xs (fun x => invoke_ (f x))) s (Call <$> (f <$> xs)).
Proof.
  revert s. induction xs as [|x xs IH]; intros s; simpl.
  - apply emits_ret.
  - apply emits_cons; [apply emits_invoke_|]. intros. apply IH.
Qed.

Lemma emits_new_events {A} (m : M A) (s : state) (evs : list event) :
  emits m s evs ->
  new_events s (m s).1 `prefix_of` evs /\
  trace (m s).1 = trace s ++ new_events s (m s).1 /\
  (is_Returned (m s).2 = true -> new_events s (m s).1 = evs).
Proof.
  intros (t & Ht & Hp & Hr). unfold new_events.
  rewrite Ht, drop_app_length. done.
Qed.

Lemma keeps_heap_ret {A} (x : A) : keeps_heap (ret x).
Proof. done. Qed.

Lemma keeps_heap_raise {A} (e : pyexn) : keeps_heap (@raise _ _ _ _ A e).
Proof. done. Qed.

Lemma keeps_heap_invoke (c : call) : keeps_heap (invoke c).
Proof.
  intros s. unfold Timeline.invoke.
  destruct (handler c (world s)) as [w [e|v]]; done.
Qed.

Lemma keeps_heap_bind {A B} (m : M A) (k : A -> M B) :
  keeps_heap m -> (forall x, keeps_heap (k x)) -> keeps_heap (bind m k).
Proof.
  intros Hm Hk s. unfold bind. specialize (Hm s).
  destruct (m s) as [s1 [x|e|e]]; simpl in *; [|done..].
  by rewrite Hk.
Qed.

Lemma keeps_heap_invoke_ (c : call) : keeps_heap (invoke_ c).
Proof.
  apply keeps_heap_bind; [apply keeps_heap_invoke|]. intros; apply keeps_heap_ret.
Qed.

Lemma keeps_heap_for_each {X} (f : X -> call) (xs : list X) :
  keeps_heap (for_each xs (fun x => invoke_ (f x))).
Proof.
  induction xs as [|x xs IH]; simpl; [apply keeps_heap_ret|].
  apply keeps_heap_bind; [apply keeps_heap_invoke_|]. intros; apply IH.
Qed.

(** ** The stages of [draw] *)

Lemma obj_at_fresh (h : list style_obj) (o : style_obj)
    (rest : list style_obj) :
  obj_at (h ++ o :: rest) (length h) = o.
Proof. unfold obj_at. by rewrite list_lookup_middle. Qed.

(** What the style stage leaves behind when it returns. *)
Lemma resolve_style_Returned (a : draw_args) (s s1 : state) (t : loc) :
  style_in_store (heap s) (style a) = true ->
  resolve_style a s = (s1, Returned t) ->
  t = length (heap s) /\
  validate_style (source_items (heap s) (style a)) = None /\
  s1 = State (heap s ++
                StyleObj QiskitTimelineStyle (effective_style (heap s) a) ::
                preset_objs (heap s) (style a))
             (world s) (trace s ++ style_events (heap s) a).
Proof.
  intros Hwf. rewrite (resolve_style_run a s Hwf).
  destruct (validate_style _); [done|]. by intros [= <- <-].
Qed.

Lemma emits_resolve_style (a : draw_args) (s : state) :
  style_in_store (heap s) (style a) = true ->
  emits (resolve_style a) s (style_events (heap s) a).
Proof.
  intros Hwf. unfold Timeline.emits. rewrite (resolve_style_run a s Hwf).
  destruct (validate_style _); simpl.
  - exists (merge_events (heap s) a). split; [done|]. split; [|done].
    by apply prefix_app_r.
  - by exists (style_events (heap s) a).
Qed.

Lemma emits_configure_canvas (a : draw_args) (t : loc) (s : state) :
  emits (configure_canvas a t) s
    (Call <$> canvas_calls_for t (obj_at (heap s) t) a).
Proof.
  unfold Timeline.configure_canvas, canvas_calls_for, setter_calls,
    time_range_calls, disable_bits_calls, label_calls.
  rewrite !fmap_app, <- !app_assoc. simpl.
  apply emits_cons; [exact (emits_invoke_ _ s)|]. intros _ s1 _.
  apply emits_cons; [apply emits_invoke_|]. intros _ s2 _.
  apply emits_bind.
  { destruct (time_range a) as [[t0 t1]|]; [apply emits_invoke_|apply emits_ret]. }
  intros _ s3 _. apply emits_bind.
  { destruct (disable_bits a) as [[|b bits]|]; try apply emits_ret.
    exact (emits_for_each (fun bit => set_disable_bits bit true) (b :: bits) s3). }
  intros _ s4 _. apply emits_bind.
  { destruct (show_labels a); simpl; [apply emits_ret|].
    exact (emits_for_each (fun label => set_disable_type label true) labels s4). }
  intros _ s5 _. apply emits_invoke_.
Qed.

Lemma emits_prepare_canvas (a : draw_args) (s : state) :
  style_in_store (heap s) (style a) = true ->
  emits (prepare_canvas a) s (canvas_events (heap s) a).
Proof.
  intros Hwf. unfold Timeline.prepare_canvas, Timeline.canvas_events.
  apply emits_bind; [by apply emits_resolve_style|].
  intros t s1 Hrun.
  destruct (resolve_style_Returned a s s1 t Hwf Hrun) as (-> & _ & ->).
  unfold Timeline.canvas_calls.
  rewrite <- (obj_at_fresh (heap s)
    (StyleObj QiskitTimelineStyle (effective_style (heap s) a))
    (preset_objs (heap s) (style a))) at 2.
  apply emits_configure_canvas.
Qed.

Lemma emits_import (s : state) :
  emits (try_except (invoke_ import_MplPlotter) isinstance_ImportError
           (fun ex =>
              raise (PyExn ImportError matplotlib_msg
                           (Some (exn_cls ex, exn_msg ex)))))
    s [Call import_MplPlotter].
Proof.
  exists [Call import_MplPlotter].
  unfold try_except, Timeline.invoke_, bind, Timeline.invoke.
  destruct (handler _ _) as [w [e|v]]; simpl; [|done].
  destruct (isinstance_ImportError e); done.
Qed.

Lemma emits_call_plotter (a : draw_args) (s : state) :
  emits (call_plotter a) s
    (if bool_decide (plotter a = Some Plotter_MPL_value)
     then Call <$> plotter_calls a else []).
Proof.
  unfold Timeline.call_plotter. case_bool_decide; [|apply emits_raise].
  unfold plotter_calls; simpl.
  apply emits_cons; [apply emits_import|]. intros _ s1 _.
  apply emits_cons; [apply emits_invoke_|]. intros _ s2 _.
  apply emits_invoke_.
Qed.

Lemma emits_save_and_return (a : draw_args) (s : state) :
  emits (save_and_return a) s (Call <$> finish_calls a).
Proof.
  unfold Timeline.save_and_return, finish_calls, save_calls.
  rewrite fmap_app. apply emits_bind; [|intros; apply emits_invoke].
  destruct (filename a) as [[|c name]|]; simpl;
    [apply emits_ret|apply emits_invoke_|apply emits_ret].
Qed.

(** Only the Matplotlib plotter lets [draw] get past the plotter stage. *)
Lemma call_plotter_Returned (a : draw_args) (s s1 : state) (x : unit) :
  call_plotter a s = (s1, Returned x) ->
  plotter a = Some Plotter_MPL_value.
Proof.
  unfold Timeline.call_plotter. case_bool_decide; [done|]. discriminate.
Qed.

(** The trace of a call is an initial segment of the expected pipeline, and
    the whole of it when the call returns. *)
Lemma emits_draw (a : draw_args) (s : state) :
  style_in_store (heap s) (style a) = true ->
  emits (draw a) s (expected_events (heap s) a).
Proof.
  intros Hwf.
  assert (emits (draw a) s
            (canvas_events (heap s) a ++
             (if bool_decide (plotter a = Some Plotter_MPL_value)
              then Call <$> plotter_calls a else []) ++
             (if bool_decide (plotter a = Some Plotter_MPL_value)
              then Call <$> finish_calls a else []))) as H.
  { unfold Timeline.draw.
    apply emits_bind; [by apply emits_prepare_canvas|]. intros _ s1 _.
    apply emits_bind; [by apply emits_call_plotter|]. intros x s2 Hp.
    rewrite bool_decide_eq_true_2 by by eapply call_plotter_Returned.
    apply emits_save_and_return. }
  unfold Timeline.expected_events, Timeline.pipeline_events.
  case_bool_decide; [done|]. by rewrite !app_nil_r in H.
Qed.

(** ** Where exceptions come from *)

Lemma only_propagates_bind {A B} (m : M A) (k : A -> M B) :
  only_propagates m -> (forall x, only_propagates (k x)) ->
  only_propagates (bind m k).
Proof.
  intros Hm Hk s e. unfold bind. specialize (Hm s).
  destruct (m s) as [s1 [x|e'|e']]; simpl in *; [apply Hk| |done].
  by destruct (Hm e').
Qed.

Lemma only_propagates_ret {A} (x : A) : only_propagates (ret x).
Proof. done. Qed.

Lemma only_propagates_invoke (c : call) : only_propagates (invoke c).
Proof.
  intros s e. unfold Timeline.invoke.
  destruct (handler c (world s)) as [w [e'|v]]; done.
Qed.

Lemma only_propagates_invoke_ (c : call) : only_propagates (invoke_ c).
Proof.
  apply only_propagates_bind; [apply only_propagates_invoke|].
  intros; apply only_propagates_ret.
Qed.

Lemma only_propagates_for_each {X} (f : X -> call) (xs : list X) :
  only_propagates (for_each xs (fun x => invoke_ (f x))).
Proof.
  induction xs as [|x xs IH]; simpl; [apply only_propagates_ret|].
  apply only_propagates_bind; [apply only_propagates_invoke_|]. intros; apply IH.
Qed.

Lemma only_propagates_override (t : loc) (key : string) (flag : option bool) :
  only_propagates (override_control t key flag).
Proof. destruct flag; done. Qed.

Lemma only_propagates_resolve_style (a : draw_args) :
  only_propagates (resolve_style a).
Proof.
  unfold Timeline.resolve_style.
  apply only_propagates_bind; [done|]. intros t.
  apply only_propagates_bind.
  { intros s e. unfold style_or_IQXStandard.
    destruct (style a); [destruct (truthy_style _ _)|]; done. }
  intros src. apply only_propagates_bind.
  { intros s e. unfold style_update, bind, log; simpl.
    destruct (validate_style _); done. }
  intros _.
  repeat (apply only_propagates_bind;
          [apply only_propagates_override|intros _]).
  apply only_propagates_ret.
Qed.

Lemma only_propagates_configure_canvas (a : draw_args) (t : loc) :
  only_propagates (configure_canvas a t).
Proof.
  unfold Timeline.configure_canvas.
  apply only_propagates_bind.
  { intros s. exact (only_propagates_invoke_ _ s). }
  intros _. apply only_propagates_bind; [apply only_propagates_invoke_|].
  intros _. apply only_propagates_bind.
  { destruct (time_range a) as [[t0 t1]|];
      [apply only_propagates_invoke_|apply only_propagates_ret]. }
  intros _. apply only_propagates_bind.
  { destruct (disable_bits a) as [[|b bits]|]; try apply only_propagates_ret.
    exact (only_propagates_for_each (fun bit => set_disable_bits bit true)
             (b :: bits)). }
  intros _. apply only_propagates_bind.
  { destruct (show_labels a); simpl; [apply only_propagates_ret|].
    exact (only_propagates_for_each
             (fun label => set_disable_type label true) labels). }
  intros _. apply only_propagates_invoke_.
Qed.

Lemma only_propagates_prepare_canvas (a : draw_args) :
  only_propagates (prepare_canvas a).
Proof.
  apply only_propagates_bind; [apply only_propagates_resolve_style|].
  intros t. apply only_propagates_configure_canvas.
Qed.

Lemma only_propagates_save_and_return (a : draw_args) :
  only_propagates (save_and_return a).
Proof.
  apply only_propagates_bind; [|intros; apply only_propagates_invoke].
  destruct (filename a) as [[|c name]|];
    [apply only_propagates_ret|apply only_propagates_invoke_
    |apply only_propagates_ret].
Qed.

(** The two [raise] statements of the plotter stage. *)
Lemma call_plotter_Raised (a : draw_args) (s : state) (e : pyexn) :
  (call_plotter a s).2 = Raised e ->
  (plotter a <> Some Plotter_MPL_value /\
   e = PyExn VisualizationError (unsupported_msg (plotter a)) None) \/
  (plotter a = Some Plotter_MPL_value /\
   exists ex,
     (handler import_MplPlotter (world s)).2 = inl ex /\
     isinstance_ImportError ex = true /\
     e = PyExn ImportError matplotlib_msg (Some (exn_cls ex, exn_msg ex))).
Proof.
  unfold Timeline.call_plotter. case_bool_decide as Hp.
  - intros Hr. right. split; [done|]. revert Hr.
    unfold bind at 1, try_except, Timeline.invoke_ at 1, bind at 1,
      Timeline.invoke at 1.
    destruct (handler import_MplPlotter (world s)) as [w [ex|v]]; simpl.
    + destruct (isinstance_ImportError ex) eqn:Hi; simpl; [|done].
      intros [= <-]. by exists ex.
    + intros Hr. exfalso. revert Hr.
      apply (only_propagates_bind (invoke_ (MplPlotter (axis a)))
               (fun _ => invoke_ plotter_draw));
        intros; apply only_propagates_invoke_.
  - intros [= <-]. by left.
Qed.

Lemma draw_after_prepare (a : draw_args) (s s1 : state) (x : unit) :
  prepare_canvas a s = (s1, Returned x) ->
  draw a s = bind (call_plotter a) (fun _ => save_and_return a) s1.
Proof. intros H. unfold Timeline.draw, bind at 1. by rewrite H. Qed.

Lemma draw_after_render (a : draw_args) (s : state) :
  draw a s = bind (render a) (fun _ => save_and_return a) s.
Proof.
  unfold Timeline.draw, Timeline.render, bind.
  destruct (prepare_canvas a s) as [s1 [x|e|e]]; done.
Qed.

(** Every [raise] statement [draw] executes is one of the plotter stage,
    reached with a finalized canvas. *)
Lemma draw_Raised (a : draw_args) (s : state) (e : pyexn) :
  (draw a s).2 = Raised e ->
  exists s1,
    prepare_canvas a s = (s1, Returned tt) /\
    (draw a s).1 = (call_plotter a s1).1 /\
    (call_plotter a s1).2 = Raised e.
Proof.
  intros Hr. destruct (prepare_canvas a s) as [s1 [[]|e'|e']] eqn:Hprep.
  - exists s1. split; [done|].
    rewrite (draw_after_prepare a s s1 tt Hprep) in Hr |- *.
    unfold bind in Hr |- *.
    destruct (call_plotter a s1) as [s2 [x|e'|e']]; simpl in *.
    + by apply only_propagates_save_and_return in Hr.
    + by injection Hr as ->.
    + done.
  - exfalso. apply (only_propagates_prepare_canvas a s e'). by rewrite Hprep.
  - unfold Timeline.draw, bind at 1 in Hr. by rewrite Hprep in Hr.
Qed.

Lemma new_events_app (s s' : state) (t : list event) :
  trace s' = trace s ++ t -> new_events s s' = t.
Proof. intros H. unfold new_events. by rewrite H, drop_app_length. Qed.

(** With a finalized canvas and an unknown plotter name, [draw] stops at
    its [raise] statement, having done nothing more. *)
Lemma draw_unknown_plotter (a : draw_args) (s s1 : state) :
  plotter a <> Some Plotter_MPL_value ->
  prepare_canvas a s = (s1, Returned tt) ->
  draw a s =
  (s1, Raised (PyExn VisualizationError (unsupported_msg (plotter a)) None)).
Proof.
  intros Hp Hprep. rewrite (draw_after_prepare a s s1 tt Hprep).
  unfold bind, Timeline.call_plotter. by rewrite bool_decide_eq_false_2.
Qed.

Lemma prepare_canvas_Returned_trace (a : draw_args) (s s1 : state) :
  style_in_store (heap s) (style a) = true ->
  prepare_canvas a s = (s1, Returned tt) ->
  trace s1 = trace s ++ canvas_events (heap s) a.
Proof.
  intros Hwf Hprep.
  destruct (emits_prepare_canvas a s Hwf) as (t & Ht & _ & Hr).
  rewrite Hprep in Ht, Hr. simpl in *. by rewrite <- (Hr eq_refl).
Qed.

Lemma is_Returned_true {A} (r : result A) :
  is_Returned r = true -> exists x, r = Returned x.
Proof. destruct r; [eauto|done..]. Qed.

Lemma prepare_canvas_is_Returned (a : draw_args) (s : state) :
  is_Returned (prepare_canvas a s).2 = true ->
  prepare_canvas a s = ((prepare_canvas a s).1, Returned tt).
Proof.
  intros [[] Hx]%is_Returned_true.
  destruct (prepare_canvas a s) as [s1 r]; simpl in *. by subst.
Qed.

(** Nothing on the canvas side belongs to the plotter. *)
Lemma canvas_events_not_plotter (h : list style_obj) (a : draw_args)
    (ev : event) :
  ev ∈ canvas_events h a -> is_plotter_event ev = false.
Proof.
  unfold Timeline.canvas_events, style_events, merge_events, override_events,
    Timeline.canvas_calls, canvas_calls_for, setter_calls,
    time_range_calls, disable_bits_calls, label_calls.
  rewrite !elem_of_app, !list_elem_of_fmap.
  intros [Hs|(c & -> & Hc)].
  - destruct Hs as [Hs|[Hs|[Hs|[Hs|Hs]]]].
    + destruct (style a); [destruct (truthy_style _ _)|];
        repeat (apply elem_of_cons in Hs as [->|Hs]; [done|]);
        by apply elem_of_nil in Hs.
    + destruct (show_idle a); [apply list_elem_of_singleton in Hs as ->; done|].
      by apply elem_of_nil in Hs.
    + destruct (show_clbits a); [apply list_elem_of_singleton in Hs as ->; done|].
      by apply elem_of_nil in Hs.
    + destruct (show_barriers a); [apply list_elem_of_singleton in Hs as ->; done|].
      by apply elem_of_nil in Hs.
    + destruct (show_delays a); [apply list_elem_of_singleton in Hs as ->; done|].
      by apply elem_of_nil in Hs.
  - rewrite !elem_of_app in Hc.
    destruct Hc as [Hc|[[Hc|[Hc|Hc]]|Hc]].
    + repeat (apply elem_of_cons in Hc as [->|Hc]; [done|]).
      by apply elem_of_nil in Hc.
    + destruct (time_range a) as [[t0 t1]|];
        [apply list_elem_of_singleton in Hc as ->; done|].
      by apply elem_of_nil in Hc.
    + destruct (disable_bits a) as [bits|]; [|by apply elem_of_nil in Hc].
      by apply list_elem_of_fmap in Hc as (b & -> & _).
    + destruct (show_labels a); [by apply elem_of_nil in Hc|].
      by apply list_elem_of_fmap in Hc as (b & -> & _).
    + by apply list_elem_of_singleton in Hc as ->.
Qed.

Lemma load_program_in_canvas_events (h : list style_obj) (a : draw_args) :
  Call (load_program (program a)) ∈ canvas_events h a.
Proof.
  unfold Timeline.canvas_events, Timeline.canvas_calls, canvas_calls_for.
  apply elem_of_app; right. apply list_elem_of_fmap.
  exists (load_program (program a)). split; [done|].
  apply elem_of_app; left. apply elem_of_cons; right. apply elem_of_cons; by left.
Qed.

Lemma last_canvas_events (h : list style_obj) (a : draw_args) :
  last (canvas_events h a) = Some (Call update).
Proof.
  unfold Timeline.canvas_events, Timeline.canvas_calls, canvas_calls_for.
  rewrite !fmap_app, !app_assoc. apply last_snoc.
Qed.

(** ** Reading traces *)

Lemma omap_prefix {A B} (f : A -> option B) (t e : list A) :
  t `prefix_of` e -> omap f t `prefix_of` omap f e.
Proof. intros [k ->]. rewrite omap_app. by exists (omap f k). Qed.

Lemma omap_nil_not_elem {A B} (f : A -> option B) (l : list A) (x : A) (y : B) :
  omap f l = [] -> f x = Some y -> x ∉ l.
Proof.
  intros Hl Hx Hin.
  assert (y ∈ omap f l) as Hy by (apply list_elem_of_omap; eauto).
  rewrite Hl in Hy. by apply elem_of_nil in Hy.
Qed.

Lemma omap_calls_nil {X B} (f : event -> option B) (g : X -> call)
    (xs : list X) :
  (forall x, f (Call (g x)) = None) -> omap f (Call <$> (g <$> xs)) = [].
Proof.
  intros Hf. induction xs as [|x xs IH]; simpl; [done|]. by rewrite Hf.
Qed.

(** A prefix of [X ++ u :: Y] that contains [u], which [X] does not, goes
    through all of [X]. *)
Lemma prefix_through {A} (t X Y : list A) (u : A) :
  t `prefix_of` X ++ u :: Y -> u ∈ t -> u ∉ X ->
  exists Y', t = X ++ u :: Y' /\ Y' `prefix_of` Y.
Proof.
  revert t. induction X as [|x X IH]; intros t Hpre Hin Hnot; simpl in *.
  - destruct t as [|y t]; [by apply elem_of_nil in Hin|].
    pose proof (prefix_cons_inv_1 _ _ _ _ Hpre) as ->.
    apply prefix_cons_inv_2 in Hpre. by exists t.
  - destruct t as [|y t]; [by apply elem_of_nil in Hin|].
    pose proof (prefix_cons_inv_1 _ _ _ _ Hpre) as ->.
    apply prefix_cons_inv_2 in Hpre.
    apply not_elem_of_cons in Hnot as [Hne Hnot].
    apply elem_of_cons in Hin as [->|Hin]; [done|].
    destruct (IH t Hpre Hin Hnot) as (Y' & -> & HY'). by exists Y'.
Qed.

(** A projection that ignores the stylesheet operations sees nothing in the
    style stage. *)
Lemma omap_style_events_nil {B} (f : event -> option B)
    (h : list style_obj) (a : draw_args) :
  (forall ev, match ev with Call _ => True | _ => f ev = None end) ->
  omap f (style_events h a) = [].
Proof.
  intros Hf.
  assert (forall t k flag, omap f (override_events t k flag) = []) as Ho.
  { intros t k [b|]; simpl; [|done]. by rewrite (Hf (StyleSetItem t k (VBool b))). }
  unfold style_events, merge_events. rewrite !omap_app, !Ho, !app_nil_r.
  pose proof (Hf (NewQiskitTimelineStyle (length h))) as H1.
  pose proof (Hf (NewIQXStandard (S (length h)))) as H2.
  pose proof (fun l => Hf (StyleUpdate (length h) l)) as H3.
  simpl in *.
  destruct (style a); [destruct (truthy_style _ _)|]; simpl;
    by rewrite H1, ?H2, H3.
Qed.

(** A projection that ignores everything up to the bit setters sees nothing
    before the label setters. *)
Lemma omap_before_labels_nil {B} (f : event -> option B)
    (h : list style_obj) (a : draw_args) (o : style_obj) :
  (forall ev,
     match ev with
     | Call (set_disable_type _ _) | Call update | Call import_MplPlotter
     | Call (MplPlotter _) | Call plotter_draw | Call (save_file _)
     | Call get_image => True
     | _ => f ev = None
     end) ->
  omap f (style_events h a ++
          Call (DrawerCanvas (length h) o) ::
          Call (load_program (program a)) ::
          (Call <$> time_range_calls a) ++ (Call <$> disable_bits_calls a)) = [].
Proof.
  intros Hf. rewrite omap_app.
  rewrite omap_style_events_nil by (intros ev; specialize (Hf ev); by destruct ev).
  pose proof (Hf (Call (DrawerCanvas (length h) o))) as H1.
  pose proof (Hf (Call (load_program (program a)))) as H2.
  simpl in *. rewrite H1, H2, omap_app.
  unfold time_range_calls, disable_bits_calls.
  assert (omap f (Call <$> match disable_bits a with
                           | Some bits =>
                               (fun bit => set_disable_bits bit true) <$> bits
                           | None => []
                           end) = []) as ->.
  { destruct (disable_bits a); [|done].
    apply omap_calls_nil. intros x. apply (Hf (Call (set_disable_bits x true))). }
  destruct (time_range a) as [[t0 t1]|]; simpl; [|done].
  by rewrite (Hf (Call (set_time_range t0 t1))).
Qed.

Lemma disabled_types_app (t1 t2 : list event) :
  disabled_types (t1 ++ t2) = disabled_types t1 ++ disabled_types t2.
Proof. apply omap_app. Qed.

Lemma disabled_types_prefix (t e : list event) :
  t `prefix_of` e -> disabled_types t `prefix_of` disabled_types e.
Proof. apply omap_prefix. Qed.

(** The expected pipeline, cut before and after the label setters. *)
Lemma expected_events_split (h : list style_obj) (a : draw_args) :
  expected_events h a =
  (style_events h a ++
   Call (DrawerCanvas (length h)
           (StyleObj QiskitTimelineStyle (effective_style h a))) ::
   Call (load_program (program a)) ::
   (Call <$> time_range_calls a) ++ (Call <$> disable_bits_calls a)) ++
  (Call <$> label_calls a) ++
  Call update ::
  (if bool_decide (plotter a = Some Plotter_MPL_value)
   then (Call <$> plotter_calls a) ++ (Call <$> finish_calls a) else []).
Proof.
  unfold Timeline.expected_events, Timeline.pipeline_events,
    Timeline.canvas_events, Timeline.canvas_calls, canvas_calls_for,
    setter_calls.
  case_bool_decide; rewrite !fmap_app, <- ?app_assoc; simpl;
    by rewrite <- ?app_assoc, ?app_nil_r.
Qed.

Lemma draw_Returned_plotter (a : draw_args) (s s' : state) (img : Any) :
  draw a s = (s', Returned img) -> plotter a = Some Plotter_MPL_value.
Proof.
  intros Hr. destruct (decide (plotter a = Some Plotter_MPL_value)) as [|Hp];
    [done|exfalso].
  destruct (prepare_canvas a s) as [s1 [[]|e|e]] eqn:Hprep.
  - by rewrite (draw_unknown_plotter a s s1 Hp Hprep) in Hr.
  - unfold Timeline.draw, bind at 1 in Hr. by rewrite Hprep in Hr.
  - unfold Timeline.draw, bind at 1 in Hr. by rewrite Hprep in Hr.
Qed.

Lemma bind_Returned {A B} (m : M A) (k : A -> M B) (s s' : state) (y : B) :
  bind m k s = (s', Returned y) ->
  exists x s1, m s = (s1, Returned x) /\ k x s1 = (s', Returned y).
Proof.
  unfold bind. destruct (m s) as [s1 [x|e|e]]; [eauto|done..].
Qed.

Lemma invoke_Returned (c : call) (s s' : state) (v : Any) :
  invoke c s = (s', Returned v) ->
  handler c (world s) = (world s', inr v) /\
  heap s' = heap s /\ trace s' = trace s ++ [Call c].
Proof.
  unfold Timeline.invoke.
  destruct (handler c (world s)) as [w [e|x]]; [done|]. by intros [= <- <-].
Qed.

(** ** The store *)

Lemma heap_bind {A B} (m : M A) (k : A -> M B) (s : state) :
  (forall x, keeps_heap (k x)) -> heap (bind m k s).1 = heap (m s).1.
Proof.
  intros Hk. unfold bind. destruct (m s) as [s1 [x|e|e]]; simpl; [|done..].
  apply Hk.
Qed.

Lemma keeps_heap_configure_canvas (a : draw_args) (t : loc) :
  keeps_heap (configure_canvas a t).
Proof.
  unfold Timeline.configure_canvas.
  apply keeps_heap_bind.
  { intros s. exact (keeps_heap_invoke_ _ s). }
  intros _. apply keeps_heap_bind; [apply keeps_heap_invoke_|].
  intros _. apply keeps_heap_bind.
  { destruct (time_range a) as [[t0 t1]|];
      [apply keeps_heap_invoke_|apply keeps_heap_ret]. }
  intros _. apply keeps_heap_bind.
  { destruct (disable_bits a) as [[|b bits]|]; try apply keeps_heap_ret.
    exact (keeps_heap_for_each (fun bit => set_disable_bits bit true)
             (b :: bits)). }
  intros _. apply keeps_heap_bind.
  { destruct (show_labels a); simpl; [apply keeps_heap_ret|].
    exact (keeps_heap_for_each
             (fun label => set_disable_type label true) labels). }
  intros _. apply keeps_heap_invoke_.
Qed.

Lemma keeps_heap_call_plotter (a : draw_args) : keeps_heap (call_plotter a).
Proof.
  unfold Timeline.call_plotter. case_bool_decide; [|apply keeps_heap_raise].
  apply keeps_heap_bind.
  { intros s. unfold try_except, Timeline.invoke_, bind, Timeline.invoke.
    destruct (handler _ _) as [w [e|v]]; simpl; [|done].
    by destruct (isinstance_ImportError e). }
  intros _. apply keeps_heap_bind; [apply keeps_heap_invoke_|].
  intros _. apply keeps_heap_invoke_.
Qed.

Lemma keeps_heap_save_and_return (a : draw_args) :
  keeps_heap (save_and_return a).
Proof.
  apply keeps_heap_bind; [|intros; apply keeps_heap_invoke].
  destruct (filename a) as [[|c name]|];
    [apply keeps_heap_ret|apply keeps_heap_invoke_|apply keeps_heap_ret].
Qed.

(** The store after a call: the caller's objects, the per-call stylesheet
    and, when it was built, the preset. *)
Lemma heap_draw (a : draw_args) (s : state) :
  style_in_store (heap s) (style a) = true ->
  exists m,
    heap (draw a s).1 =
    heap s ++ StyleObj QiskitTimelineStyle m :: preset_objs (heap s) (style a).
Proof.
  intros Hwf. unfold Timeline.draw.
  rewrite heap_bind.
  2:{ intros _. apply keeps_heap_bind; [apply keeps_heap_call_plotter|].
      intros _. apply keeps_heap_save_and_return. }
  unfold Timeline.prepare_canvas.
  rewrite heap_bind by apply keeps_heap_configure_canvas.
  rewrite (resolve_style_run a s Hwf).
  destruct (validate_style _); simpl; eauto.
Qed.

(** ** The stylesheet the canvas receives *)

Lemma omap_all_None {A B} (f : A -> option B) (l : list A) :
  (forall x, x ∈ l -> f x = None) -> omap f l = [].
Proof.
  induction l as [|x l IH]; intros Hf; simpl; [done|].
  rewrite (Hf x) by (apply elem_of_cons; by left).
  apply IH. intros y Hy. apply Hf. apply elem_of_cons; by right.
Qed.

Lemma canvases_expected (h : list style_obj) (a : draw_args) :
  canvases (expected_events h a) =
  [(length h, StyleObj QiskitTimelineStyle (effective_style h a))].
Proof.
  rewrite expected_events_split. unfold canvases.
  rewrite !omap_app.
  rewrite omap_style_events_nil by (by intros []).
  assert (forall cs : list call,
            (forall c, c ∈ cs ->
                       match c with DrawerCanvas _ _ => False | _ => True end) ->
            omap (fun ev => match ev with
                            | Call (DrawerCanvas l o) => Some (l, o)
                            | _ => None
                            end) (Call <$> cs) = []) as Hcs.
  { intros cs Hc. apply omap_all_None. intros ev (c & -> & Hin)%list_elem_of_fmap.
    specialize (Hc c Hin). by destruct c. }
  simpl. rewrite omap_app, !Hcs; first 1 last.
  - unfold label_calls. intros c Hc.
    destruct (show_labels a); [by apply elem_of_nil in Hc|].
    by apply list_elem_of_fmap in Hc as (x & -> & _).
  - unfold disable_bits_calls. intros c Hc.
    destruct (disable_bits a); [|by apply elem_of_nil in Hc].
    by apply list_elem_of_fmap in Hc as (x & -> & _).
  - unfold time_range_calls. intros c Hc.
    destruct (time_range a) as [[t0 t1]|]; [|by apply elem_of_nil in Hc].
    by apply list_elem_of_singleton in Hc as ->.
  - simpl. case_bool_decide; [|done]. simpl.
    change (list_omap event (loc * style_obj)%type ?f ?l) with (omap f l).
    rewrite Hcs; [done|].
    unfold finish_calls, save_calls. intros c Hc. apply elem_of_app in Hc as [Hc|Hc].
    + destruct (filename a) as [[|ch name]|]; simpl in Hc;
        try by apply elem_of_nil in Hc.
      by apply list_elem_of_singleton in Hc as ->.
    + by apply list_elem_of_singleton in Hc as ->.
Qed.

(** Whenever a canvas is created, it is given the fresh per-call stylesheet
    holding the effective style. *)
Lemma canvas_created_with (a : draw_args) (s : state) (l : loc)
    (o : style_obj) :
  style_in_store (heap s) (style a) = true ->
  Call (DrawerCanvas l o) ∈ new_events s (draw a s).1 ->
  l = length (heap s) /\
  o = StyleObj QiskitTimelineStyle (effective_style (heap s) a).
Proof.
  intros Hwf Hin.
  destruct (emits_new_events _ _ _ (emits_draw a s Hwf)) as (Hpre & _ & _).
  assert ((l, o) ∈ canvases (new_events s (draw a s).1)) as Hc.
  { apply list_elem_of_omap. by exists (Call (DrawerCanvas l o)). }
  apply (omap_prefix (fun ev => match ev with
                                | Call (DrawerCanvas l o) => Some (l, o)
                                | _ => None
                                end)) in Hpre.
  destruct Hpre as [k Hk]. fold (canvases (expected_events (heap s) a)) in Hk.
  rewrite canvases_expected in Hk.
  assert ((l, o) ∈ [(length (heap s),
                     StyleObj QiskitTimelineStyle (effective_style (heap s) a))])
    as Hel.
  { rewrite Hk. apply elem_of_app. by left. }
  apply list_elem_of_singleton in Hel. by injection Hel.
Qed.

Lemma lookup_apply_override_eq (key : string) (flag : option bool)
    (m : gmap string value) :
  apply_override key flag m !! key =
  match flag with
  | Some b => Some (VBool b)
  | None => m !! key
  end.
Proof. destruct flag; simpl; [apply lookup_insert_eq|done]. Qed.

Lemma lookup_apply_override_ne (key k : string) (flag : option bool)
    (m : gmap string value) :
  k <> key -> apply_override key flag m !! k = m !! k.
Proof. intros Hne. destruct flag; simpl; [by apply lookup_insert_ne|done]. Qed.

(** ** Rendering, then saving *)

Lemma emits_render (a : draw_args) (s : state) :
  style_in_store (heap s) (style a) = true ->
  emits (render a) s
    (canvas_events (heap s) a ++
     (if bool_decide (plotter a = Some Plotter_MPL_value)
      then Call <$> plotter_calls a else [])).
Proof.
  intros Hwf. unfold Timeline.render.
  apply emits_bind; [by apply emits_prepare_canvas|].
  intros. apply emits_call_plotter.
Qed.

Lemma save_and_return_trace (a : draw_args) (s : state) :
  exists post,
    trace (save_and_return a s).1 =
      trace s ++ (Call <$> save_calls a) ++ post /\
    post `prefix_of` [Call get_image] /\
    (is_Returned (save_and_return a s).2 = true -> post = [Call get_image]).
Proof.
  unfold Timeline.save_and_return, save_calls.
  destruct (filename a) as [[|c name]|]; simpl.
  - exists [Call get_image]. unfold bind, ret, Timeline.invoke; simpl.
    destruct (handler get_image (world s)) as [w [e|v]]; done.
  - unfold bind, Timeline.invoke_, bind, Timeline.invoke, ret; simpl.
    destruct (handler (save_file (String c name)) (world s)) as [w [e|v]];
      simpl.
    + exists []. split; [done|]. split; [apply prefix_nil|done].
    + exists [Call get_image].
      destruct (handler get_image w) as [w' [e|v']]; simpl;
        by rewrite <- app_assoc.
  - exists [Call get_image]. unfold bind, ret, Timeline.invoke; simpl.
    destruct (handler get_image (world s)) as [w [e|v]]; done.
Qed.

(** The two ways a call can go: the rendering returns, and the trace is
    the whole pipeline up to the saving, which is complete but possibly for
    [get_image]; or it does not, and the trace stops within it. *)
Lemma draw_trace_cases (a : draw_args) (s : state) :
  style_in_store (heap s) (style a) = true ->
  (is_Returned (render a s).2 = true /\
   plotter a = Some Plotter_MPL_value /\
   exists post,
     new_events s (draw a s).1 =
       canvas_events (heap s) a ++ (Call <$> plotter_calls a) ++
       (Call <$> save_calls a) ++ post /\
     post `prefix_of` [Call get_image] /\
     (is_Returned (draw a s).2 = true -> post = [Call get_image])) \/
  (is_Returned (render a s).2 = false /\
   is_Returned (draw a s).2 = false /\
   new_events s (draw a s).1 `prefix_of`
     canvas_events (heap s) a ++ (Call <$> plotter_calls a)).
Proof.
  intros Hwf.
  destruct (emits_render a s Hwf) as (t & Ht & Hpre & Hret).
  pose proof (draw_after_render a s) as Hdraw. unfold bind in Hdraw.
  destruct (render a s) as [s2 [[]|e|e]] eqn:Hren;
    cbn [fst snd is_Returned] in *; rewrite Hdraw; cbn [fst snd is_Returned].
  - left. split; [done|].
    assert (plotter a = Some Plotter_MPL_value) as Hp.
    { revert Hren. unfold Timeline.render. intros Hren.
      apply bind_Returned in Hren as (x & s1 & _ & Hcp).
      by eapply call_plotter_Returned. }
    split; [done|].
    rewrite (Hret eq_refl), bool_decide_eq_true_2 in Ht by done.
    destruct (save_and_return_trace a s2) as (post & Hpost & Hpp & Hpr).
    exists post. split; [|done].
    apply new_events_app. rewrite Hpost, Ht. by rewrite <- !app_assoc.
  - right. split; [done|]. split; [done|].
    rewrite (new_events_app _ _ _ Ht).
    case_bool_decide; [done|]. rewrite app_nil_r in Hpre. by apply prefix_app_r.
  - right. split; [done|]. split; [done|].
    rewrite (new_events_app _ _ _ Ht).
    case_bool_decide; [done|]. rewrite app_nil_r in Hpre. by apply prefix_app_r.
Qed.

Lemma saved_files_app (t1 t2 : list event) :
  saved_files (t1 ++ t2) = saved_files t1 ++ saved_files t2.
Proof. apply omap_app. Qed.

Lemma saved_files_canvas_events (h : list style_obj) (a : draw_args) :
  saved_files (canvas_events h a) = [].
Proof.
  apply omap_all_None. intros ev Hev%canvas_events_not_plotter.
  by destruct ev as [| | | |[]].
Qed.

Lemma saved_files_elem (tr : list event) (name : string) :
  Call (save_file name) ∈ tr <-> name ∈ saved_files tr.
Proof.
  unfold saved_files. rewrite list_elem_of_omap. split.
  - intros Hin. by exists (Call (save_file name)).
  - intros (ev & Hin & Hev). destruct ev as [| | | |[]]; try done.
    by injection Hev as ->.
Qed.

(** ** The beginning of every trace *)

Lemma prefix_of_calls (t : list event) (cs : list call) (ev : event) :
  t `prefix_of` Call <$> cs -> ev ∈ t -> exists c, ev = Call c.
Proof.
  intros [k Hk] Hin.
  assert (ev ∈ Call <$> cs) as He by (rewrite Hk; apply elem_of_app; by left).
  apply list_elem_of_fmap in He as (c & -> & _). by exists c.
Qed.

(** Whatever happens later, a call starts by creating the per-call
    stylesheet and merging one mapping into it; after that come item
    assignments and calls to the collaborators only. *)
Lemma draw_trace_begin (a : draw_args) (s : state) :
  style_in_store (heap s) (style a) = true ->
  exists rest,
    new_events s (draw a s).1 = merge_events (heap s) a ++ rest /\
    forall ev, ev ∈ rest ->
               match ev with
               | StyleSetItem _ _ _ | Call _ => True
               | _ => False
               end.
Proof.
  intros Hwf.
  set (K := fun t : loc =>
              bind (configure_canvas a t)
                (fun _ => bind (call_plotter a) (fun _ => save_and_return a))).
  assert (draw a s = bind (resolve_style a) K s) as ->.
  { unfold Timeline.draw, Timeline.prepare_canvas, K, bind.
    destruct (resolve_style a s) as [s1 [x|e|e]]; done. }
  unfold bind at 1. rewrite (resolve_style_run a s Hwf).
  destruct (validate_style _) as [e|]; cbn [fst].
  { exists []. split; [|by intros ev ?%elem_of_nil].
    apply new_events_app. cbn [trace]. by rewrite app_nil_r. }
  set (s1 := State _ _ _).
  assert (exists cs, emits (K (length (heap s))) s1 (Call <$> cs)) as [cs Hcs].
  { exists (canvas_calls_for (length (heap s)) (obj_at (heap s1) (length (heap s))) a ++
            (if bool_decide (plotter a = Some Plotter_MPL_value)
             then plotter_calls a ++ finish_calls a else [])).
    rewrite fmap_app. unfold K.
    apply emits_bind; [apply emits_configure_canvas|]. intros _ s2 _.
    case_bool_decide as Hp.
    - rewrite fmap_app. apply emits_bind.
      + pose proof (emits_call_plotter a s2) as H.
        by rewrite bool_decide_eq_true_2 in H.
      + intros. apply emits_save_and_return.
    - apply (emits_bind _ _ _ [] []).
      + pose proof (emits_call_plotter a s2) as H.
        by rewrite bool_decide_eq_false_2 in H.
      + intros x s3 Hx. apply call_plotter_Returned in Hx. done. }
  destruct Hcs as (t2 & Ht2 & Hpre2 & _).
  exists ((override_events (length (heap s)) key_show_idle (show_idle a) ++
           override_events (length (heap s)) key_show_clbits (show_clbits a) ++
           override_events (length (heap s)) key_show_barriers (show_barriers a) ++
           override_events (length (heap s)) key_show_delays (show_delays a)) ++
          t2).
  split.
  - apply new_events_app. rewrite Ht2. unfold s1, style_events; cbn [trace].
    by rewrite <- !app_assoc.
  - intros ev [Hin|Hin]%elem_of_app.
    + unfold override_events in Hin. rewrite !elem_of_app in Hin.
      destruct (show_idle a), (show_clbits a), (show_barriers a),
        (show_delays a);
        rewrite ?list_elem_of_singleton, ?elem_of_nil in Hin;
        destruct Hin as [Hin|[Hin|[Hin|Hin]]]; by subst.
    + by destruct (prefix_of_calls _ _ _ Hpre2 Hin) as [c ->].
Qed.

(** ** Properties of [draw] *)


(** C6: when the plotter name is the registered one and importing the
    Matplotlib plotter fails with an [ImportError], [draw] raises an
    [ImportError], which is not the [VisualizationError] of an unknown
    plotter name, and whose message names Matplotlib. *)
Theorem missing_matplotlib_raises_ImportError
    (a : draw_args) (s s1 : state) (w : World) (ex : pyexn) :
  plotter a = Some Plotter_MPL_value ->
  prepare_canvas a s = (s1, Returned tt) ->
  handler import_MplPlotter (world s1) = (w, inl ex) ->
  isinstance_ImportError ex = true ->
  let e := PyExn ImportError matplotlib_msg (Some (exn_cls ex, exn_msg ex)) in
  (draw a s).2 = Raised e /\
  exn_cls e <> VisualizationError /\
  (forall p, e <> PyExn VisualizationError (unsupported_msg p) None) /\
  contains "Matplotlib" (exn_msg e) = true.
Proof.
  intros Hp Hprep Himp Hi e. split; [|done].
  rewrite (draw_after_prepare a s s1 tt Hprep).
  unfold bind at 1, Timeline.call_plotter.
  rewrite bool_decide_eq_true_2 by done.
  unfold bind at 1, try_except, Timeline.invoke_ at 1, bind at 1,
    Timeline.invoke at 1.
  by rewrite Himp, Hi.
Qed.

(** C1, amended: for every program and every plotter name other than
    ["mpl"], [draw] returns no image and does no plotter-side work (no
    import, no plotter, no rendering, no saving, no image); with a finalized
    canvas it raises the
    [VisualizationError], and a call that ends in a [raise] statement of
    [draw] has by then created the canvas, invoked [load_program] and the
    setters, and last of all [update]. *)
Theorem unknown_plotter_fails_after_canvas_update
    (a : draw_args) (s : state) :
  plotter a <> Some Plotter_MPL_value ->
  style_in_store (heap s) (style a) = true ->
  let tr := new_events s (draw a s).1 in
  is_Returned (draw a s).2 = false /\
  (forall ev, ev ∈ tr -> is_plotter_event ev = false) /\
  (is_Returned (prepare_canvas a s).2 = true ->
   (draw a s).2 =
   Raised (PyExn VisualizationError (unsupported_msg (plotter a)) None) /\
   tr = canvas_events (heap s) a) /\
  (forall e, (draw a s).2 = Raised e -> tr = canvas_events (heap s) a) /\
  Call (load_program (program a)) ∈ canvas_events (heap s) a /\
  last (canvas_events (heap s) a) = Some (Call update).
Proof.
  intros Hp Hwf tr.
  assert (forall s1, prepare_canvas a s = (s1, Returned tt) ->
                     tr = canvas_events (heap s) a) as Htr.
  { intros s1 Hprep. unfold tr.
    rewrite (draw_unknown_plotter a s s1 Hp Hprep). simpl.
    apply new_events_app. by apply prepare_canvas_Returned_trace. }
  split; [|split; [|split; [|split; [|split]]]].
  - destruct (draw a s) as [s' [img| |]] eqn:Hrun; [|done..].
    by apply draw_Returned_plotter in Hrun.
  - intros ev Hev.
    destruct (emits_new_events _ _ _ (emits_draw a s Hwf)) as (Hpre & _ & _).
    unfold Timeline.expected_events in Hpre.
    rewrite bool_decide_eq_false_2 in Hpre by done.
    destruct Hpre as [k Hk].
    apply (canvas_events_not_plotter (heap s) a). rewrite Hk.
    apply elem_of_app. by left.
  - intros Hprep%prepare_canvas_is_Returned. split; [|by eapply Htr].
    by rewrite (draw_unknown_plotter a s _ Hp Hprep).
  - intros e (s1 & Hprep & _)%draw_Raised. by eapply Htr.
  - apply load_program_in_canvas_events.
  - apply last_canvas_events.
Qed.

(** C7: in every call that returns an image the steps come in this order:
    the style is resolved and the per-call overrides are written; the canvas
    is created with that style and [load_program] is invoked; the setters
    run ([set_time_range], [set_disable_bits] for each listed bit,
    [set_disable_type] for the labels); [update] is invoked, after all
    setters; the plotter is imported, built and asked to draw; the image
    is saved if a file name was given; [get_image] is invoked, and what it
    returns is what [draw] returns. *)
Theorem successful_draw_pipeline_order
    (a : draw_args) (s s' : state) (img : Any) :
  style_in_store (heap s) (style a) = true ->
  draw a s = (s', Returned img) ->
  plotter a = Some Plotter_MPL_value /\
  new_events s s' =
    style_events (heap s) a ++
    (Call <$>
       [DrawerCanvas (length (heap s))
          (StyleObj QiskitTimelineStyle (effective_style (heap s) a));
        load_program (program a)] ++
       time_range_calls a ++ disable_bits_calls a ++ label_calls a ++
       [update] ++
       [import_MplPlotter; MplPlotter (axis a); plotter_draw] ++
       finish_calls a) /\
  exists w, handler get_image w = (world s', inr img).
Proof.
  intros Hwf Hrun.
  pose proof (draw_Returned_plotter a s s' img Hrun) as Hp.
  split; [done|]. split.
  - destruct (emits_new_events _ _ _ (emits_draw a s Hwf)) as (_ & _ & Hr).
    rewrite Hrun in Hr. simpl in Hr. rewrite (Hr eq_refl).
    unfold Timeline.expected_events, Timeline.pipeline_events,
      Timeline.canvas_events, Timeline.canvas_calls, canvas_calls_for,
      setter_calls.
    rewrite bool_decide_eq_true_2 by done.
    rewrite !fmap_app, <- !app_assoc. done.
  - rewrite draw_after_render in Hrun.
    apply bind_Returned in Hrun as (x & s2 & _ & Hfin).
    apply bind_Returned in Hfin as (y & s3 & _ & Hget).
    apply invoke_Returned in Hget as (Hget & _). eauto.
Qed.

Lemma last_elem_of {A} (l : list A) (x : A) : last l = Some x -> x ∈ l.
Proof.
  intros Hl. destruct (last_Some l x) as [[l' ->] _]; [done|].
  apply elem_of_app. right. by apply list_elem_of_singleton.
Qed.

(** Once the canvas is finalized, all of the canvas stage is in the trace. *)
Lemma draw_trace_after_prepare (a : draw_args) (s s1 : state) :
  style_in_store (heap s) (style a) = true ->
  prepare_canvas a s = (s1, Returned tt) ->
  exists rest, new_events s (draw a s).1 = canvas_events (heap s) a ++ rest.
Proof.
  intros Hwf Hprep.
  pose proof (prepare_canvas_Returned_trace a s s1 Hwf Hprep) as Htr.
  destruct (decide (plotter a = Some Plotter_MPL_value)) as [Hp|Hp].
  - rewrite (draw_after_prepare a s s1 tt Hprep).
    assert (emits (bind (call_plotter a) (fun _ => save_and_return a)) s1
              ((Call <$> plotter_calls a) ++ (Call <$> finish_calls a)))
      as (t & Ht & _).
    { apply emits_bind.
      - pose proof (emits_call_plotter a s1) as H.
        by rewrite bool_decide_eq_true_2 in H.
      - intros. apply emits_save_and_return. }
    exists t. apply new_events_app. by rewrite Ht, Htr, <- app_assoc.
  - rewrite (draw_unknown_plotter a s s1 Hp Hprep). exists [].
    apply new_events_app. cbn [fst]. by rewrite app_nil_r.
Qed.

(** C2: with [show_labels=True] no [set_disable_type] call is made.  With
    [show_labels=False] the only [set_disable_type] calls are those for
    [DELAY], [GATE_PARAM] and [GATE_NAME], in this order, each with
    [remove=True]; whenever [update] is reached all three have been made,
    directly before it.  And [update] is reached: in every call whose canvas
    stage completes, [update] is called and the [set_disable_type] calls of
    the call are exactly these three (none, with [show_labels=True]). *)
Theorem show_labels_disables_three_label_types
    (a : draw_args) (s : state) :
  style_in_store (heap s) (style a) = true ->
  let tr := new_events s (draw a s).1 in
  (show_labels a = true -> disabled_types tr = []) /\
  (show_labels a = false ->
   disabled_types tr `prefix_of`
     [(DELAY, true); (GATE_PARAM, true); (GATE_NAME, true)] /\
   (Call update ∈ tr ->
    exists pre post,
      tr = pre ++
           [Call (set_disable_type DELAY true);
            Call (set_disable_type GATE_PARAM true);
            Call (set_disable_type GATE_NAME true);
            Call update] ++ post /\
      disabled_types pre = [] /\ disabled_types post = [])) /\
  (is_Returned (prepare_canvas a s).2 = true ->
   Call update ∈ tr /\
   disabled_types tr =
     if show_labels a then []
     else [(DELAY, true); (GATE_PARAM, true); (GATE_NAME, true)]).
Proof.
  intros Hwf tr.
  destruct (emits_new_events _ _ _ (emits_draw a s Hwf)) as (Hpre & _ & _).
  fold tr in Hpre. rewrite expected_events_split in Hpre.
  set (X := style_events (heap s) a ++ _) in Hpre.
  set (Y := if bool_decide _ then _ else _) in Hpre.
  assert (disabled_types X = []) as HX.
  { apply omap_before_labels_nil. by intros [| | | |[]]. }
  assert (disabled_types Y = []) as HY.
  { unfold Y, disabled_types, plotter_calls, finish_calls, save_calls.
    case_bool_decide; [|done]. rewrite omap_app. simpl.
    by destruct (filename a) as [[|c name]|]. }
  assert (disabled_types tr `prefix_of` disabled_types (Call <$> label_calls a))
    as Hdis.
  { apply disabled_types_prefix in Hpre.
    rewrite !disabled_types_app, HX in Hpre.
    change (disabled_types (Call update :: Y)) with (disabled_types Y) in Hpre.
    by rewrite HY, app_nil_r in Hpre. }
  assert (Call update ∈ tr ->
          exists post,
            tr = X ++ (Call <$> label_calls a) ++ Call update :: post /\
            disabled_types post = []) as Hcut.
  { intros Hin. rewrite app_assoc in Hpre.
    apply prefix_through in Hpre as (Y' & HY' & HpY); [|done|].
    - exists Y'. rewrite HY', <- app_assoc. split; [done|].
      apply disabled_types_prefix in HpY. rewrite HY in HpY.
      by apply prefix_nil_inv.
    - apply (omap_nil_not_elem
               (fun ev => match ev with
                          | Call update => Some tt
                          | _ => None
                          end) _ _ tt); [|done].
      rewrite omap_app. unfold X.
      rewrite omap_before_labels_nil by (by intros [| | | |[]]).
      unfold label_calls. by destruct (show_labels a). }
  split; [|split].
  - intros Hl. unfold label_calls in Hdis. rewrite Hl in Hdis.
    by apply prefix_nil_inv.
  - intros Hl. split.
    + unfold label_calls in Hdis. by rewrite Hl in Hdis.
    + intros (post & Htr & Hpost)%Hcut. exists X, post.
      unfold label_calls in Htr. rewrite Hl in Htr. by rewrite Htr.
  - intros Hprep%prepare_canvas_is_Returned.
    destruct (draw_trace_after_prepare a s _ Hwf Hprep) as (rest & Hrest).
    assert (Call update ∈ tr) as Hin.
    { unfold tr. rewrite Hrest. apply elem_of_app. left.
      apply last_elem_of, last_canvas_events. }
    split; [done|].
    destruct (Hcut Hin) as (post & Htr & Hpost).
    rewrite Htr, !disabled_types_app, HX.
    change (disabled_types (Call update :: post)) with (disabled_types post).
    rewrite Hpost, app_nil_r. unfold label_calls.
    by destruct (show_labels a).
Qed.

(** C3: for each of [show_idle], [show_clbits], [show_barriers] and
    [show_delays], the stylesheet the canvas is created with holds, under the
    flag's [formatter.control] key, the caller's value when one was passed
    and the value of the resolved style when [None] was passed; every other
    key holds the value of the resolved style. *)
Theorem control_flags_replace_style_entries
    (a : draw_args) (s : state) (l : loc) (o : style_obj) :
  style_in_store (heap s) (style a) = true ->
  Call (DrawerCanvas l o) ∈ new_events s (draw a s).1 ->
  let entry (flag : option bool) (key : string) :=
    match flag with
    | Some b => Some (VBool b)
    | None => resolved_style (heap s) a !! key
    end in
  obj_items o !! key_show_idle = entry (show_idle a) key_show_idle /\
  obj_items o !! key_show_clbits = entry (show_clbits a) key_show_clbits /\
  obj_items o !! key_show_barriers = entry (show_barriers a) key_show_barriers /\
  obj_items o !! key_show_delays = entry (show_delays a) key_show_delays /\
  (forall k,
     k <> key_show_idle -> k <> key_show_clbits ->
     k <> key_show_barriers -> k <> key_show_delays ->
     obj_items o !! k = resolved_style (heap s) a !! k).
Proof.
  intros Hwf Hin entry.
  destruct (canvas_created_with a s l o Hwf Hin) as [-> ->].
  unfold entry, Timeline.effective_style; simpl.
  repeat split.
  - rewrite !lookup_apply_override_ne by done. apply lookup_apply_override_eq.
  - rewrite !lookup_apply_override_ne by done.
    rewrite lookup_apply_override_eq.
    destruct (show_clbits a); [done|]. by rewrite lookup_apply_override_ne.
  - rewrite !lookup_apply_override_ne by done.
    rewrite lookup_apply_override_eq.
    destruct (show_barriers a); [done|]. by rewrite !lookup_apply_override_ne.
  - rewrite lookup_apply_override_eq.
    destruct (show_delays a); [done|]. by rewrite !lookup_apply_override_ne.
  - intros k H1 H2 H3 H4. by rewrite !lookup_apply_override_ne.
Qed.

(** C10: [draw] leaves every stylesheet object of the caller as it was, the
    [style] argument among them: the store after the call is the store
    before it followed by the objects [draw] created, and every item
    assignment and every [update] of the call is applied to the per-call
    stylesheet, which is a new object. *)
Theorem draw_never_mutates_caller_style (a : draw_args) (s : state) :
  style_in_store (heap s) (style a) = true ->
  heap s `prefix_of` heap (draw a s).1 /\
  (forall l o, style a = Some l -> heap s !! l = Some o ->
               heap (draw a s).1 !! l = Some o) /\
  (forall self key v,
     StyleSetItem self key v ∈ new_events s (draw a s).1 ->
     self = length (heap s) /\ heap s !! self = None) /\
  (forall self src,
     StyleUpdate self src ∈ new_events s (draw a s).1 ->
     self = length (heap s) /\ heap s !! self = None).
Proof.
  intros Hwf. destruct (heap_draw a s Hwf) as [m Hm].
  split; [rewrite Hm; by eexists|].
  split.
  { intros l o _ Hl. rewrite Hm. by apply lookup_app_l_Some. }
  destruct (emits_new_events _ _ _ (emits_draw a s Hwf)) as ([k Hk] & _ & _).
  assert (forall ev, ev ∈ new_events s (draw a s).1 ->
                     ev ∈ style_events (heap s) a \/ exists c, ev = Call c)
    as Hev.
  { intros ev Hin.
    assert (ev ∈ expected_events (heap s) a) as He
      by (rewrite Hk; apply elem_of_app; by left).
    unfold Timeline.expected_events, Timeline.pipeline_events,
      Timeline.canvas_events in He.
    case_bool_decide; rewrite !elem_of_app, !list_elem_of_fmap in He.
    - destruct He as [[He|(c & -> & _)]|[(c & -> & _)|(c & -> & _)]]; eauto.
    - destruct He as [He|(c & -> & _)]; eauto. }
  assert (heap s !! length (heap s) = None) as Hfresh
    by by apply lookup_ge_None_2.
  assert (forall ev, ev ∈ style_events (heap s) a ->
                     match ev with
                     | StyleSetItem self _ _ | StyleUpdate self _ =>
                         self = length (heap s)
                     | _ => True
                     end) as Hstyle.
  { intros ev Hin.
    unfold style_events, merge_events, override_events in Hin.
    rewrite !elem_of_app in Hin.
    destruct Hin as [Hin|[Hin|[Hin|[Hin|Hin]]]].
    - destruct (style a); [destruct (truthy_style _ _)|];
        repeat (apply elem_of_cons in Hin as [->|Hin]; [done|]);
        by apply elem_of_nil in Hin.
    - destruct (show_idle a); [|by apply elem_of_nil in Hin].
      by apply list_elem_of_singleton in Hin as ->.
    - destruct (show_clbits a); [|by apply elem_of_nil in Hin].
      by apply list_elem_of_singleton in Hin as ->.
    - destruct (show_barriers a); [|by apply elem_of_nil in Hin].
      by apply list_elem_of_singleton in Hin as ->.
    - destruct (show_delays a); [|by apply elem_of_nil in Hin].
      by apply list_elem_of_singleton in Hin as ->. }
  split.
  - intros self key v [Hin|[c Hc]]%Hev; [|done].
    apply Hstyle in Hin. by subst.
  - intros self src [Hin|[c Hc]]%Hev; [|done].
    apply Hstyle in Hin. by subst.
Qed.

(** C5: [save_file] is called with a name exactly when that name is the
    [filename] argument, it is not empty, and the rendering has returned.
    The call then comes directly after [plotter_draw], once, and is followed
    by nothing but [get_image], which is called whenever [draw] returns.  With
    no file name (or an empty one), [save_file] is never called. *)
Theorem save_file_iff_filename_after_render (a : draw_args) (s : state) :
  style_in_store (heap s) (style a) = true ->
  let tr := new_events s (draw a s).1 in
  (forall name,
     Call (save_file name) ∈ tr <->
     filename a = Some name /\ name <> "" /\
     is_Returned (render a s).2 = true) /\
  (forall name,
     Call (save_file name) ∈ tr ->
     exists pre post,
       tr = pre ++ [Call plotter_draw; Call (save_file name)] ++ post /\
       saved_files pre = [] /\
       post `prefix_of` [Call get_image] /\
       (is_Returned (draw a s).2 = true -> post = [Call get_image])) /\
  (truthy_str (filename a) = false -> saved_files tr = []).
Proof.
  intros Hwf tr.
  assert (saved_files (canvas_events (heap s) a ++ (Call <$> plotter_calls a))
          = []) as Hnone.
  { by rewrite saved_files_app, saved_files_canvas_events. }
  destruct (draw_trace_cases a s Hwf)
    as [(Hren & Hp & post & Htr & Hpost & Hret)|(Hren & Hdraw & Hpre)];
    fold tr in Htr || fold tr in Hpre.
  - assert (saved_files post = []) as Hsp.
    { apply (omap_prefix (fun ev => match ev with
                                    | Call (save_file name) => Some name
                                    | _ => None
                                    end)) in Hpost.
      by apply prefix_nil_inv in Hpost. }
    assert (saved_files tr = saved_files (Call <$> save_calls a)) as Hsaved.
    { rewrite Htr, !saved_files_app, saved_files_canvas_events, Hsp.
      change (saved_files (Call <$> plotter_calls a)) with (@nil string).
      by rewrite app_nil_r. }
    split; [|split].
    + intros name. rewrite saved_files_elem, Hsaved. unfold save_calls.
      destruct (filename a) as [[|c n]|]; simpl.
      * rewrite elem_of_nil. split; [done|]. by intros ([= <-] & Hne & _).
      * rewrite list_elem_of_singleton.
        split; [by intros ->|]. by intros ([= <-] & _).
      * rewrite elem_of_nil. split; [done|]. by intros (? & _).
    + intros name Hin. apply saved_files_elem in Hin. rewrite Hsaved in Hin.
      unfold save_calls in Hin, Htr.
      destruct (filename a) as [[|c n]|]; simpl in Hin;
        try by apply elem_of_nil in Hin.
      apply list_elem_of_singleton in Hin as ->.
      exists (canvas_events (heap s) a ++
              [Call import_MplPlotter; Call (MplPlotter (axis a))]), post.
      split; [|split; [|done]].
      * rewrite Htr. unfold plotter_calls. simpl. by rewrite <- !app_assoc.
      * by rewrite saved_files_app, saved_files_canvas_events.
    + intros Hf. rewrite Hsaved. unfold save_calls.
      destruct (filename a) as [[|c n]|]; done.
  - assert (saved_files tr = []) as Hsaved.
    { apply (omap_prefix (fun ev => match ev with
                                    | Call (save_file name) => Some name
                                    | _ => None
                                    end)) in Hpre.
      fold (saved_files tr) in Hpre.
      fold (saved_files (canvas_events (heap s) a ++ (Call <$> plotter_calls a)))
        in Hpre.
      rewrite Hnone in Hpre. by apply prefix_nil_inv. }
    split; [|split].
    + intros name. rewrite saved_files_elem, Hsaved, elem_of_nil, Hren.
      split; [done|]. by intros (_ & _ & ?).
    + intros name Hin. apply saved_files_elem in Hin. rewrite Hsaved in Hin.
      by apply elem_of_nil in Hin.
    + done.
Qed.

(** C8: whatever the [style] argument is, a raw dictionary or a preset
    stylesheet object, [draw] resolves it in one and the same way: it creates
    a new [QiskitTimelineStyle] and calls [update] on it, once, with the
    mapping; the canvas then receives that object, holding the mapping's
    entries over the defaults, with the overrides applied.  The class of the
    caller's object plays no part. *)
Theorem style_forms_share_resolution (a : draw_args) (s : state) :
  style_in_store (heap s) (style a) = true ->
  let t := length (heap s) in
  let tr := new_events s (draw a s).1 in
  (exists rest,
     tr = merge_events (heap s) a ++ rest /\
     forall ev, ev ∈ rest ->
                match ev with
                | StyleSetItem _ _ _ | Call _ => True
                | _ => False
                end) /\
  (forall l o,
     Call (DrawerCanvas l o) ∈ tr ->
     l = t /\
     o = StyleObj QiskitTimelineStyle (effective_style (heap s) a)) /\
  (forall l o,
     style a = Some l -> heap s !! l = Some o -> obj_items o <> ∅ ->
     merge_events (heap s) a = [NewQiskitTimelineStyle t; StyleUpdate t l] /\
     resolved_style (heap s) a = obj_items o ∪ default_style).
Proof.
  intros Hwf t tr. split; [by apply draw_trace_begin|].
  split; [intros l o; by apply canvas_created_with|].
  intros l o Hst Hl Hne.
  assert (truthy_style (heap s) (style a) = true) as Ht.
  { rewrite Hst. unfold truthy_style, items_at. rewrite Hl.
    by rewrite bool_decide_eq_false_2. }
  unfold merge_events, Timeline.resolved_style, Timeline.source_items.
  rewrite Hst in Ht |- *. rewrite Ht. unfold items_at. by rewrite Hl.
Qed.

(** C9: when [style] is [None] or a mapping without entries, [draw] behaves
    as it does for the same call without a style: it builds the
    [IQXStandard] preset and merges that, so that the resolved style is the
    preset over the defaults. *)
Theorem empty_style_same_as_no_style (a : draw_args) (s : state) :
  (style a = None \/
   exists l o, style a = Some l /\ heap s !! l = Some o /\ obj_items o = ∅) ->
  let t := length (heap s) in
  draw a s = draw (with_style a None) s /\
  resolved_style (heap s) a = IQXStandard_style ∪ default_style /\
  exists rest,
    new_events s (draw a s).1 =
    NewQiskitTimelineStyle t :: NewIQXStandard (S t) :: StyleUpdate t (S t) ::
    rest.
Proof.
  intros Hst t.
  assert (style_in_store (heap s) (style a) = true) as Hwf.
  { destruct Hst as [->|(l & o & -> & Hl & _)]; [done|].
    apply bool_decide_eq_true. by eapply lookup_lt_Some. }
  assert (truthy_style (heap s) (style a) = false) as Hf.
  { destruct Hst as [->|(l & o & -> & Hl & He)]; [done|].
    unfold truthy_style, items_at. rewrite Hl, He.
    by rewrite bool_decide_eq_true_2. }
  assert (merge_events (heap s) a =
          [NewQiskitTimelineStyle t; NewIQXStandard (S t); StyleUpdate t (S t)])
    as Hmerge.
  { unfold merge_events. rewrite Hf. by destruct (style a). }
  assert (source_items (heap s) (style a) = IQXStandard_style) as Hsrc.
  { unfold Timeline.source_items. rewrite Hf. by destruct (style a). }
  split; [|split].
  - assert (resolve_style a s = resolve_style (with_style a None) s) as Hres.
    { rewrite (resolve_style_run a s Hwf).
      rewrite (resolve_style_run (with_style a None) s eq_refl).
      unfold Timeline.effective_style, Timeline.resolved_style,
        Timeline.preset_objs, style_events.
      rewrite Hmerge, Hsrc, Hf. done. }
    unfold Timeline.draw, Timeline.prepare_canvas, bind.
    by rewrite Hres.
  - unfold Timeline.resolved_style. by rewrite Hsrc.
  - destruct (draw_trace_begin a s Hwf) as (rest & Hrest & _).
    exists rest. by rewrite Hrest, Hmerge.
Qed.

(** ** Edge cases and failures *)

(** X1: an empty list of bits and an empty file name are treated as if the
    argument had been left out: the call gives the same final state and the
    same result. *)
Theorem falsy_optionals_same_as_omitted (a : draw_args) (s : state) :
  (disable_bits a = Some [] -> draw a s = draw (with_disable_bits a None) s) /\
  (filename a = Some "" -> draw a s = draw (with_filename a None) s).
Proof.
  split; intros H.
  - unfold Timeline.draw, Timeline.prepare_canvas, Timeline.configure_canvas.
    cbn [with_disable_bits program style time_range disable_bits show_clbits
         show_idle show_barriers show_delays show_labels plotter axis filename].
    by rewrite H.
  - unfold Timeline.draw, Timeline.save_and_return.
    cbn [with_filename program style time_range disable_bits show_clbits
         show_idle show_barriers show_delays show_labels plotter axis filename].
    by rewrite H.
Qed.

(** X2: however a call ends, what it has done is an initial part of one fixed
    sequence of steps, each with the caller's arguments: nothing is done out
    of order, beyond that sequence, or after a failure; a call that returns
    has done all of it, and [get_image], when it is called, is the last thing done. *)
Theorem every_trace_is_a_pipeline_prefix (a : draw_args) (s : state) :
  style_in_store (heap s) (style a) = true ->
  let tr := new_events s (draw a s).1 in
  trace (draw a s).1 = trace s ++ tr /\
  tr `prefix_of` expected_events (heap s) a /\
  (is_Returned (draw a s).2 = true -> tr = expected_events (heap s) a) /\
  (Call get_image ∈ tr -> last tr = Some (Call get_image)).
Proof.
  intros Hwf tr.
  destruct (emits_new_events _ _ _ (emits_draw a s Hwf)) as (Hpre & Htr & Hret).
  split; [done|]. split; [done|]. split; [done|].
  intros Hin. fold tr in Hpre.
  unfold Timeline.expected_events, Timeline.pipeline_events in Hpre.
  case_bool_decide as Hp.
  2:{ destruct Hpre as [k Hk].
      assert (Call get_image ∈ canvas_events (heap s) a) as Hc
        by (rewrite Hk; apply elem_of_app; by left).
      by apply canvas_events_not_plotter in Hc. }
  unfold finish_calls in Hpre. rewrite fmap_app, !app_assoc in Hpre.
  change (Call <$> [get_image]) with ([@Call Program Bits Any get_image] ++ [])
    in Hpre.
  apply prefix_through in Hpre as (Y' & HY' & HpY); [| done |].
  - apply prefix_nil_inv in HpY as ->. rewrite HY'. apply last_snoc.
  - apply (omap_nil_not_elem
             (fun ev => match ev with
                        | Call get_image => Some tt
                        | _ => None
                        end) _ _ tt); [|done].
    rewrite !omap_app.
    rewrite (omap_all_None _ (canvas_events (heap s) a)).
    2:{ intros ev Hev%canvas_events_not_plotter. by destruct ev as [| | | |[]]. }
    unfold save_calls. by destruct (filename a) as [[|c n]|].
Qed.

(** With a finalized canvas and the registered plotter name, an import that
    fails with an [ImportError] makes [draw] raise its own, chained to it. *)
Lemma draw_import_error (a : draw_args) (s s1 : state) (ex : pyexn) :
  plotter a = Some Plotter_MPL_value ->
  prepare_canvas a s = (s1, Returned tt) ->
  (handler import_MplPlotter (world s1)).2 = inl ex ->
  isinstance_ImportError ex = true ->
  (draw a s).2 =
  Raised (PyExn ImportError matplotlib_msg (Some (exn_cls ex, exn_msg ex))).
Proof.
  intros Hp Hprep Himp Hi.
  rewrite (draw_after_prepare a s s1 tt Hprep).
  unfold bind at 1, Timeline.call_plotter.
  rewrite bool_decide_eq_true_2 by done.
  unfold bind at 1, try_except, Timeline.invoke_ at 1, bind at 1,
    Timeline.invoke at 1.
  destruct (handler import_MplPlotter (world s1)) as [w r]. simpl in Himp.
  by rewrite Himp, Hi.
Qed.

(** X3: [draw] ends in one of its own [raise] statements in exactly two
    situations, those of its docstring, both with a finalized canvas: the
    plotter name is not the registered one, and the exception is the
    [VisualizationError]; or the name is the registered one, importing the
    plotter was answered with an [ImportError] (of any class deriving from
    it), and the exception is the [ImportError] of [draw] chained to that
    very exception. *)
Theorem draw_raises_only_documented_errors
    (a : draw_args) (s : state) (e : pyexn) :
  (draw a s).2 = Raised e <->
  exists s1,
    prepare_canvas a s = (s1, Returned tt) /\
    ((plotter a <> Some Plotter_MPL_value /\
      e = PyExn VisualizationError (unsupported_msg (plotter a)) None) \/
     (plotter a = Some Plotter_MPL_value /\
      exists ex,
        (handler import_MplPlotter (world s1)).2 = inl ex /\
        isinstance_ImportError ex = true /\
        e = PyExn ImportError matplotlib_msg
                  (Some (exn_cls ex, exn_msg ex)))).
Proof.
  split.
  - intros (s1 & Hprep & _ & Hr)%draw_Raised. exists s1. split; [done|].
    apply call_plotter_Raised in Hr as [[Hp ->]|(Hp & ex & Hh & Hi & ->)].
    + by left.
    + right. split; [done|]. by exists ex.
  - intros (s1 & Hprep & [[Hp ->]|(Hp & ex & Hh & Hi & ->)]).
    + by rewrite (draw_unknown_plotter a s s1 Hp Hprep).
    + by apply (draw_import_error a s s1 ex).
Qed.

(** X4: when importing the plotter fails, [draw] stops there: the import is
    the last thing it did, no plotter is built and nothing is rendered,
    saved or fetched.  An [ImportError] is replaced by the [ImportError] of
    [draw]; any other exception passes through as it is. *)
Theorem import_failure_stops_draw
    (a : draw_args) (s s1 : state) (w : World) (ex : pyexn) :
  style_in_store (heap s) (style a) = true ->
  plotter a = Some Plotter_MPL_value ->
  prepare_canvas a s = (s1, Returned tt) ->
  handler import_MplPlotter (world s1) = (w, inl ex) ->
  (draw a s).2 =
    (if isinstance_ImportError ex
     then Raised (PyExn ImportError matplotlib_msg
                        (Some (exn_cls ex, exn_msg ex)))
     else Propagated ex) /\
  new_events s (draw a s).1 =
    canvas_events (heap s) a ++ [Call import_MplPlotter] /\
  world (draw a s).1 = w.
Proof.
  intros Hwf Hp Hprep Himp.
  pose proof (prepare_canvas_Returned_trace a s s1 Hwf Hprep) as Htr.
  assert (call_plotter a s1 =
          (State (heap s1) w (trace s1 ++ [Call import_MplPlotter]),
           if isinstance_ImportError ex
           then Raised (PyExn ImportError matplotlib_msg
                              (Some (exn_cls ex, exn_msg ex)))
           else Propagated ex)) as Hcp.
  { unfold Timeline.call_plotter. rewrite bool_decide_eq_true_2 by done.
    unfold bind at 1, try_except, Timeline.invoke_ at 1, bind at 1,
      Timeline.invoke at 1.
    rewrite Himp. by destruct (isinstance_ImportError ex). }
  rewrite (draw_after_prepare a s s1 tt Hprep).
  unfold bind. rewrite Hcp.
  destruct (isinstance_ImportError ex); cbn [fst snd world];
    (split; [done|]); (split; [|done]);
    apply new_events_app; cbn [trace]; by rewrite Htr, <- app_assoc.
Qed.

(** X5: when the rendering has returned but [save_file] raises, [draw]
    returns no image: the exception passes through and [get_image] is never
    called. *)
Theorem save_failure_returns_no_image
    (a : draw_args) (s s2 : state) (name : string) (w : World) (e : pyexn) :
  style_in_store (heap s) (style a) = true ->
  render a s = (s2, Returned tt) ->
  filename a = Some name -> name <> "" ->
  handler (save_file name) (world s2) = (w, inl e) ->
  (draw a s).2 = Propagated e /\
  trace (draw a s).1 = trace s2 ++ [Call (save_file name)] /\
  Call get_image ∉ new_events s (draw a s).1.
Proof.
  intros Hwf Hren Hf Hne Hsave.
  assert (draw a s =
          (State (heap s2) w (trace s2 ++ [Call (save_file name)]),
           Propagated e)) as Hrun.
  { rewrite draw_after_render. unfold bind at 1. rewrite Hren.
    unfold Timeline.save_and_return. rewrite Hf.
    destruct name as [|c n]; [done|].
    unfold bind, Timeline.invoke_, bind, Timeline.invoke.
    by rewrite Hsave. }
  rewrite Hrun. cbn [fst snd trace]. split; [done|]. split; [done|].
  destruct (emits_render a s Hwf) as (t & Ht & _ & Hret).
  rewrite Hren in Ht, Hret. cbn [fst snd] in Ht, Hret.
  rewrite (Hret eq_refl) in Ht.
  rewrite (new_events_app s _ (canvas_events (heap s) a ++
             (if bool_decide (plotter a = Some Plotter_MPL_value)
              then Call <$> plotter_calls a else []) ++
             [Call (save_file name)])).
  2:{ cbn [trace]. rewrite Ht. by rewrite <- !app_assoc. }
  apply (omap_nil_not_elem
           (fun ev => match ev with
                      | Call get_image => Some tt
                      | _ => None
                      end) _ _ tt); [|done].
  rewrite !omap_app.
  rewrite (omap_all_None _ (canvas_events (heap s) a)).
  2:{ intros ev Hev%canvas_events_not_plotter. by destruct ev as [| | | |[]]. }
  by case_bool_decide.
Qed.

(** X6: the [IQXStandard] preset is built only when it is needed, that is
    when [style] is [None] or empty, and then once, right after the per-call
    stylesheet; accordingly a call adds one object to the store, or two. *)
Theorem preset_built_only_when_needed (a : draw_args) (s : state) :
  style_in_store (heap s) (style a) = true ->
  (forall l,
     NewIQXStandard l ∈ new_events s (draw a s).1 <->
     truthy_style (heap s) (style a) = false /\ l = S (length (heap s))) /\
  length (heap (draw a s).1) =
    length (heap s) + (if truthy_style (heap s) (style a) then 1 else 2).
Proof.
  intros Hwf. split.
  - intros l.
    destruct (draw_trace_begin a s Hwf) as (rest & -> & Hrest).
    rewrite elem_of_app. unfold merge_events. split.
    + intros [Hin|Hin]; [|by apply Hrest in Hin].
      destruct (style a); [destruct (truthy_style _ _)|];
        repeat (apply elem_of_cons in Hin as [Heq|Hin];
                [by simplify_eq|]);
        by apply elem_of_nil in Hin.
    + intros [Ht ->]. left. rewrite Ht.
      destruct (style a); apply elem_of_cons; right; apply elem_of_cons; by left.
  - destruct (heap_draw a s Hwf) as [m ->].
    rewrite length_app. unfold Timeline.preset_objs.
    destruct (truthy_style _ _); simpl; lia.
Qed.

(** ** The setters, in every run *)

Lemma omap_calls_all {X} (f : event -> option call) (g : X -> call)
    (xs : list X) :
  (forall x, f (Call (g x)) = Some (g x)) ->
  omap f (Call <$> (g <$> xs)) = g <$> xs.
Proof.
  intros Hf. induction xs as [|x xs IH]; simpl; [done|].
  rewrite Hf. f_equal. apply IH.
Qed.

Lemma setters_app (t1 t2 : list event) :
  setters (t1 ++ t2) = setters t1 ++ setters t2.
Proof. apply omap_app. Qed.

Lemma setters_prefix (t e : list event) :
  t `prefix_of` e -> setters t `prefix_of` setters e.
Proof. apply omap_prefix. Qed.

Lemma setters_setter_calls (a : draw_args) :
  setters (Call <$> setter_calls a) = setter_calls a.
Proof.
  unfold setter_calls. rewrite !fmap_app, !setters_app. f_equal; [|f_equal].
  - unfold time_range_calls. by destruct (time_range a) as [[t0 t1]|].
  - unfold disable_bits_calls. destruct (disable_bits a) as [bits|]; [|done].
    by apply (omap_calls_all _ (fun bit => set_disable_bits bit true)).
  - unfold label_calls. by destruct (show_labels a).
Qed.

(** The expected pipeline, cut before the setters and after [update]. *)
Lemma expected_events_split_setters (h : list style_obj) (a : draw_args) :
  expected_events h a =
  ((style_events h a ++
    [Call (DrawerCanvas (length h)
             (StyleObj QiskitTimelineStyle (effective_style h a)));
     Call (load_program (program a))]) ++
   (Call <$> setter_calls a)) ++
  Call update ::
  (if bool_decide (plotter a = Some Plotter_MPL_value)
   then (Call <$> plotter_calls a) ++ (Call <$> finish_calls a) else []).
Proof.
  unfold Timeline.expected_events, Timeline.pipeline_events,
    Timeline.canvas_events, Timeline.canvas_calls, canvas_calls_for.
  case_bool_decide; rewrite !fmap_app, <- ?app_assoc; simpl;
    by rewrite <- ?app_assoc, ?app_nil_r.
Qed.

(** X7: in every run the setter calls made are an initial part of:
    [set_time_range] with the two ends of [time_range] if it was given, then
    [set_disable_bits(bit, remove=True)] for the bits of [disable_bits] in
    the order of the list, then the label types.  Whenever [update] is
    reached all of them have been made, between [load_program] and
    [update], and none is made afterwards. *)
Theorem setters_run_in_order_before_update (a : draw_args) (s : state) :
  style_in_store (heap s) (style a) = true ->
  let tr := new_events s (draw a s).1 in
  setters tr `prefix_of`
    time_range_calls a ++ disable_bits_calls a ++ label_calls a /\
  (Call update ∈ tr ->
   exists pre post,
     tr = pre ++
          (Call <$> time_range_calls a ++ disable_bits_calls a ++ label_calls a) ++
          Call update :: post /\
     last pre = Some (Call (load_program (program a))) /\
     setters pre = [] /\ setters post = []).
Proof.
  intros Hwf tr.
  destruct (emits_new_events _ _ _ (emits_draw a s Hwf)) as (Hpre & _ & _).
  fold tr in Hpre. rewrite expected_events_split_setters in Hpre.
  set (X := style_events (heap s) a ++ _) in Hpre.
  set (Y := if bool_decide _ then _ else _) in Hpre.
  fold (setter_calls a).
  assert (setters X = []) as HX.
  { unfold X. rewrite setters_app. unfold setters at 1.
    rewrite omap_style_events_nil by (by intros []). done. }
  assert (setters Y = []) as HY.
  { unfold Y, setters, plotter_calls, finish_calls, save_calls.
    case_bool_decide; [|done]. rewrite omap_app. simpl.
    by destruct (filename a) as [[|c name]|]. }
  split.
  - apply setters_prefix in Hpre.
    rewrite !setters_app, HX, setters_setter_calls in Hpre.
    change (setters (Call update :: Y)) with (setters Y) in Hpre.
    by rewrite HY, app_nil_r in Hpre.
  - intros Hin.
    apply prefix_through in Hpre as (Y' & HY' & HpY); [|done|].
    + exists X, Y'. rewrite HY', <- app_assoc. split; [done|].
      split; [unfold X; by rewrite last_app|].
      split; [done|].
      apply setters_prefix in HpY.
      rewrite HY in HpY. by apply prefix_nil_inv.
    + apply (omap_nil_not_elem
               (fun ev => match ev with
                          | Call update => Some tt
                          | _ => None
                          end) _ _ tt); [|done].
      rewrite omap_app. unfold X. rewrite omap_app.
      rewrite omap_style_events_nil by (by intros []).
      simpl. apply omap_all_None.
      intros ev (c & -> & Hc)%list_elem_of_fmap.
      unfold setter_calls, time_range_calls, disable_bits_calls, label_calls
        in Hc.
      rewrite !elem_of_app in Hc. destruct Hc as [Hc|[Hc|Hc]].
      * destruct (time_range a) as [[t0 t1]|]; [|by apply elem_of_nil in Hc].
        by apply list_elem_of_singleton in Hc as ->.
      * destruct (disable_bits a); [|by apply elem_of_nil in Hc].
        by apply list_elem_of_fmap in Hc as (x & -> & _).
      * destruct (show_labels a); [by apply elem_of_nil in Hc|].
        by apply list_elem_of_fmap in Hc as (x & -> & _).
Qed.

(** ** Exceptions that pass through *)

Lemma calls_app (t1 t2 : list event) : calls (t1 ++ t2) = calls t1 ++ calls t2.
Proof. apply omap_app. Qed.

Lemma replay_app (cs1 cs2 : list call) (w w1 : World) :
  replay cs1 w = (w1, None, []) -> replay (cs1 ++ cs2) w = replay cs2 w1.
Proof.
  revert w. induction cs1 as [|c cs1 IH]; intros w; simpl.
  - by intros [= ->].
  - destruct (handler c w) as [w' [e|v]]; [done|]. apply IH.
Qed.

Lemma replay_Some_not_nil (cs : list call) (w w' : World) (ex : pyexn)
    (rest : list call) :
  replay cs w = (w', Some ex, rest) -> cs <> [].
Proof. by destruct cs. Qed.

Lemma import_is_last_app (cs1 cs2 : list call) :
  cs2 <> [] -> import_is_last (cs1 ++ cs2) = import_is_last cs2.
Proof.
  intros Hne. unfold import_is_last. rewrite last_app.
  destruct (last cs2) eqn:Hl; [done|]. by apply last_None in Hl.
Qed.

Lemma tracks_bind {A B} (m : M A) (k : A -> M B) :
  tracks m -> (forall x, tracks (k x)) -> tracks (bind m k).
Proof.
  intros Hm Hk s. destruct (Hm s) as (t1 & o1 & Ht1 & Hr1 & He1).
  unfold bind. destruct (m s) as [s1 [x|e|e]]; cbn [fst snd erase] in *.
  - destruct o1 as [ex|].
    { unfold Timeline.ends_as in He1. by destruct (_ && _). }
    destruct (Hk x s1) as (t2 & o2 & Ht2 & Hr2 & He2).
    exists (t1 ++ t2), o2. rewrite Ht2, Ht1, <- app_assoc. split; [done|].
    rewrite calls_app, (replay_app _ _ _ _ Hr1). split; [done|].
    destruct o2 as [ex|]; [|done]. unfold Timeline.ends_as in *.
    rewrite import_is_last_app; [done|]. by eapply replay_Some_not_nil.
  - by exists t1, o1.
  - by exists t1, o1.
Qed.

Lemma tracks_ret {A} (x : A) : tracks (ret x).
Proof. intros s. exists [], None. by rewrite app_nil_r. Qed.

Lemma tracks_raise {A} (e : pyexn) : tracks (@raise _ _ _ _ A e).
Proof. intros s. exists [], None. by rewrite app_nil_r. Qed.

(** Operations on stylesheet objects are no calls to collaborators. *)
Lemma tracks_log (ev : event) :
  match ev with Call _ => False | _ => True end -> tracks (log ev).
Proof.
  intros Hev s. exists [ev], None. split; [done|].
  by destruct ev.
Qed.

Lemma tracks_alloc (o : style_obj) : tracks (alloc o).
Proof. intros s. exists [], None. by rewrite app_nil_r. Qed.

Lemma tracks_invoke (c : call) :
  match c with import_MplPlotter => False | _ => True end ->
  tracks (invoke c).
Proof.
  intros Hc s. exists [Call c]. unfold Timeline.invoke. simpl.
  destruct (handler c (world s)) as [w [e|v]]; simpl.
  - exists (Some e). split; [done|]. split; [done|].
    unfold Timeline.ends_as, import_is_last. simpl. by destruct c.
  - by exists None.
Qed.

Lemma tracks_invoke_ (c : call) :
  match c with import_MplPlotter => False | _ => True end ->
  tracks (invoke_ c).
Proof.
  intros Hc. apply tracks_bind; [by apply tracks_invoke|].
  intros; apply tracks_ret.
Qed.

Lemma tracks_for_each {X} (f : X -> call) (xs : list X) :
  (forall x, match f x with import_MplPlotter => False | _ => True end) ->
  tracks (for_each xs (fun x => invoke_ (f x))).
Proof.
  intros Hf. induction xs as [|x xs IH]; simpl; [apply tracks_ret|].
  apply tracks_bind; [apply tracks_invoke_, Hf|]. intros; apply IH.
Qed.

Lemma tracks_import :
  tracks (try_except (invoke_ import_MplPlotter) isinstance_ImportError
            (fun ex =>
               raise (PyExn ImportError matplotlib_msg
                            (Some (exn_cls ex, exn_msg ex))))).
Proof.
  intros s. exists [Call import_MplPlotter].
  unfold try_except, Timeline.invoke_, bind, Timeline.invoke. simpl.
  destruct (handler import_MplPlotter (world s)) as [w [e|v]]; simpl.
  - exists (Some e). unfold Timeline.ends_as, import_is_last. simpl.
    by destruct (isinstance_ImportError e).
  - by exists None.
Qed.

Lemma tracks_style_setitem (t : loc) (key : string) (v : value) :
  tracks (style_setitem t key v).
Proof.
  apply tracks_bind; [by apply tracks_log|]. intros _ s.
  exists [], None. by rewrite app_nil_r.
Qed.

Lemma tracks_override (t : loc) (key : string) (flag : option bool) :
  tracks (override_control t key flag).
Proof. destruct flag; [apply tracks_style_setitem|apply tracks_ret]. Qed.

Lemma tracks_new_IQXStandard : tracks (new_IQXStandard IQXStandard_style).
Proof.
  apply tracks_bind; [apply tracks_alloc|]. intros l.
  apply tracks_bind; [by apply tracks_log|]. intros; apply tracks_ret.
Qed.

Lemma tracks_resolve_style (a : draw_args) : tracks (resolve_style a).
Proof.
  unfold Timeline.resolve_style.
  apply tracks_bind.
  { apply tracks_bind; [apply tracks_alloc|]. intros l.
    apply tracks_bind; [by apply tracks_log|]. intros; apply tracks_ret. }
  intros t. apply tracks_bind.
  { intros s. unfold style_or_IQXStandard.
    destruct (style a) as [l|]; [destruct (truthy_style _ _)|].
    - apply (tracks_ret l).
    - apply tracks_new_IQXStandard.
    - apply tracks_new_IQXStandard. }
  intros src. apply tracks_bind.
  { apply tracks_bind; [by apply tracks_log|]. intros _ s.
    exists [], None. rewrite app_nil_r. cbn beta zeta.
    destruct (validate_style (items_at (heap s) src)) as [e|] eqn:Hv; simpl.
    - split; [done|]. split; [done|]. intros e' [= <-]. eauto.
    - done. }
  intros _.
  repeat (apply tracks_bind; [apply tracks_override|intros _]).
  apply tracks_ret.
Qed.

Lemma tracks_configure_canvas (a : draw_args) (t : loc) :
  tracks (configure_canvas a t).
Proof.
  unfold Timeline.configure_canvas.
  apply tracks_bind.
  { intros s. exact (tracks_invoke_ (DrawerCanvas t _) I s). }
  intros _. apply tracks_bind; [by apply tracks_invoke_|].
  intros _. apply tracks_bind.
  { destruct (time_range a) as [[t0 t1]|];
      [by apply tracks_invoke_|apply tracks_ret]. }
  intros _. apply tracks_bind.
  { destruct (disable_bits a) as [[|b bits]|]; try apply tracks_ret.
    by apply (tracks_for_each (fun bit => set_disable_bits bit true)
                (b :: bits)). }
  intros _. apply tracks_bind.
  { destruct (show_labels a); simpl; [apply tracks_ret|].
    by apply (tracks_for_each
                (fun label => set_disable_type label true) labels). }
  intros _. by apply tracks_invoke_.
Qed.

Lemma tracks_call_plotter (a : draw_args) : tracks (call_plotter a).
Proof.
  unfold Timeline.call_plotter. case_bool_decide; [|apply tracks_raise].
  apply tracks_bind; [apply tracks_import|].
  intros _. apply tracks_bind; [by apply tracks_invoke_|].
  intros _. by apply tracks_invoke_.
Qed.

Lemma tracks_save_and_return (a : draw_args) : tracks (save_and_return a).
Proof.
  apply tracks_bind; [|intros; by apply tracks_invoke].
  destruct (filename a) as [[|c name]|];
    [apply tracks_ret|by apply tracks_invoke_|apply tracks_ret].
Qed.

Lemma tracks_draw (a : draw_args) : tracks (draw a).
Proof.
  unfold Timeline.draw, Timeline.prepare_canvas.
  apply tracks_bind.
  { apply tracks_bind; [apply tracks_resolve_style|].
    intros t. apply tracks_configure_canvas. }
  intros _. apply tracks_bind; [apply tracks_call_plotter|].
  intros _. apply tracks_save_and_return.
Qed.


(** ** When nothing fails *)

Section NothingFails.

Hypothesis handler_returns :
  forall c w, exists w' v, handler c w = (w', inr v).

Lemma returns_bind {A B} (m : M A) (k : A -> M B) (s : state) :
  is_Returned (m s).2 = true ->
  (forall x s1, is_Returned (k x s1).2 = true) ->
  is_Returned (bind m k s).2 = true.
Proof.
  intros Hm Hk. unfold bind. destruct (m s) as [s1 [x|e|e]]; [apply Hk|done..].
Qed.

Lemma returns_invoke (c : call) (s : state) :
  is_Returned (invoke c s).2 = true.
Proof.
  unfold Timeline.invoke.
  destruct (handler_returns c (world s)) as (w & v & ->). done.
Qed.

Lemma returns_invoke_ (c : call) (s : state) :
  is_Returned (invoke_ c s).2 = true.
Proof. apply returns_bind; [apply returns_invoke|done]. Qed.

Lemma returns_for_each {X} (f : X -> call) (xs : list X) (s : state) :
  is_Returned (for_each xs (fun x => invoke_ (f x)) s).2 = true.
Proof.
  revert s. induction xs as [|x xs IH]; intros s; simpl; [done|].
  apply returns_bind; [apply returns_invoke_|]. intros; apply IH.
Qed.

Lemma returns_configure_canvas (a : draw_args) (t : loc) (s : state) :
  is_Returned (configure_canvas a t s).2 = true.
Proof.
  unfold Timeline.configure_canvas.
  apply returns_bind; [exact (returns_invoke_ _ s)|]. intros _ s1.
  apply returns_bind; [apply returns_invoke_|]. intros _ s2.
  apply returns_bind.
  { destruct (time_range a) as [[t0 t1]|]; [apply returns_invoke_|done]. }
  intros _ s3. apply returns_bind.
  { destruct (disable_bits a) as [[|b bits]|]; try done.
    exact (returns_for_each (fun bit => set_disable_bits bit true)
             (b :: bits) s3). }
  intros _ s4. apply returns_bind.
  { destruct (show_labels a); simpl; [done|].
    exact (returns_for_each (fun label => set_disable_type label true)
             labels s4). }
  intros _ s5. apply returns_invoke_.
Qed.

Lemma returns_prepare_canvas (a : draw_args) (s : state) :
  style_in_store (heap s) (style a) = true ->
  validate_style (source_items (heap s) (style a)) = None ->
  is_Returned (prepare_canvas a s).2 = true.
Proof.
  intros Hwf Hv. unfold Timeline.prepare_canvas.
  apply returns_bind; [|intros; apply returns_configure_canvas].
  by rewrite (resolve_style_run a s Hwf), Hv.
Qed.

Lemma returns_call_plotter (a : draw_args) (s : state) :
  plotter a = Some Plotter_MPL_value ->
  is_Returned (call_plotter a s).2 = true.
Proof.
  intros Hp. unfold Timeline.call_plotter.
  rewrite bool_decide_eq_true_2 by done.
  apply returns_bind.
  { unfold try_except. pose proof (returns_invoke_ import_MplPlotter s) as H.
    by destruct (invoke_ import_MplPlotter s) as [s1 [x|e|e]]. }
  intros _ s1. apply returns_bind; [apply returns_invoke_|].
  intros _ s2. apply returns_invoke_.
Qed.

Lemma returns_save_and_return (a : draw_args) (s : state) :
  is_Returned (save_and_return a s).2 = true.
Proof.
  apply returns_bind; [|intros; apply returns_invoke].
  destruct (filename a) as [[|c name]|]; [done|apply returns_invoke_|done].
Qed.

End NothingFails.

(** X9: [draw] has no failure of its own for the registered plotter: when
    no collaborator raises and the stylesheet accepts the mapping, a call
    with plotter ["mpl"] returns an image; with any other plotter name the
    same call ends in the [VisualizationError]. *)
Theorem draw_returns_when_nothing_fails (a : draw_args) (s : state) :
  (forall c w, exists w' v, handler c w = (w', inr v)) ->
  style_in_store (heap s) (style a) = true ->
  validate_style (source_items (heap s) (style a)) = None ->
  (plotter a = Some Plotter_MPL_value ->
   exists s' img, draw a s = (s', Returned img)) /\
  (plotter a <> Some Plotter_MPL_value ->
   (draw a s).2 =
   Raised (PyExn VisualizationError (unsupported_msg (plotter a)) None)).
Proof.
  intros Hok Hwf Hv.
  pose proof (returns_prepare_canvas Hok a s Hwf Hv) as Hprep.
  split; intros Hp.
  - assert (is_Returned (draw a s).2 = true) as Hr.
    { unfold Timeline.draw. apply returns_bind; [done|]. intros _ s1.
      apply returns_bind; [by apply returns_call_plotter|].
      intros _ s2. by apply returns_save_and_return. }
    destruct (draw a s) as [s' [img|e|e]]; [eauto|done..].
  - apply prepare_canvas_is_Returned in Hprep.
    by rewrite (draw_unknown_plotter a s _ Hp Hprep).
Qed.

End Properties.

(** * Concrete calls *)

Section ConcreteCalls.

Import Example.

Local Abbreviation edraw h := (draw h defaults standard accept_all).
Local Abbreviation eprepare h :=
  (prepare_canvas h defaults standard accept_all).
Local Abbreviation erender h := (render h defaults standard accept_all).

Local Ltac in_list :=
  vm_compute;
  repeat first [apply list_elem_of_here | apply list_elem_of_further].

(** The call [draw(qc, ..., plotter='svg2', ...)] with collaborators that
    never fail: the [VisualizationError] is raised, but only after the
    canvas has been created, has loaded the program, has been configured
    and updated. *)
Lemma unknown_plotter_error_comes_after_load_program :
  let r := run ok_handler unknown_plotter in
  r.2 = Raised (PyExn VisualizationError
                      "Plotter API svg2 is not supported." None) /\
  trace r.1 =
    [NewQiskitTimelineStyle 3; StyleUpdate 3 0;
     StyleSetItem 3 key_show_idle (VBool true);
     StyleSetItem 3 key_show_clbits (VBool false);
     StyleSetItem 3 key_show_delays (VBool false);
     Call (DrawerCanvas 3 (obj_at (heap r.1) 3));
     Call (load_program 1);
     Call (set_time_range 0 100);
     Call (set_disable_bits 3 true);
     Call (set_disable_bits 4 true);
     Call (set_disable_type DELAY true);
     Call (set_disable_type GATE_PARAM true);
     Call (set_disable_type GATE_NAME true);
     Call update] /\
  Call (load_program (program unknown_plotter)) ∈ trace r.1.
Proof.
  split; [vm_compute; reflexivity|].
  split; [vm_compute; reflexivity|]. in_list.
Qed.

Lemma unknown_plotter_fails_after_canvas_update_witness :
  plotter unknown_plotter <> Some Plotter_MPL_value /\
  style_in_store (heap s0) (style unknown_plotter) = true /\
  (edraw ok_handler unknown_plotter s0).2 =
    Raised (PyExn VisualizationError "Plotter API svg2 is not supported." None) /\
  new_events s0 (edraw ok_handler unknown_plotter s0).1 =
    canvas_events defaults standard (heap s0) unknown_plotter.
Proof.
  split; [discriminate|]. split; [reflexivity|].
  destruct (unknown_plotter_fails_after_canvas_update ok_handler defaults
              standard accept_all unknown_plotter s0)
    as (_ & _ & H & _); [discriminate|reflexivity|].
  apply H. vm_compute; reflexivity.
Defined.

Lemma show_labels_disables_three_label_types_witness :
  style_in_store (heap s0) (style full) = true /\
  show_labels full = false /\
  is_Returned (eprepare ok_handler full s0).2 = true /\
  Call update ∈ new_events s0 (edraw ok_handler full s0).1 /\
  disabled_types (new_events s0 (edraw ok_handler full s0).1) =
    [(DELAY, true); (GATE_PARAM, true); (GATE_NAME, true)].
Proof.
  split; [reflexivity|]. split; [reflexivity|].
  split; [vm_compute; reflexivity|].
  destruct (show_labels_disables_three_label_types ok_handler defaults standard
              accept_all full s0 eq_refl) as (_ & _ & H).
  apply H. vm_compute; reflexivity.
Defined.

Lemma control_flags_replace_style_entries_witness :
  let o := obj_at (heap (edraw ok_handler full s0).1) 3 in
  style_in_store (heap s0) (style full) = true /\
  Call (DrawerCanvas 3 o) ∈ new_events s0 (edraw ok_handler full s0).1 /\
  obj_items o !! key_show_idle = Some (VBool true) /\
  obj_items o !! key_show_clbits = Some (VBool false) /\
  obj_items o !! key_show_barriers =
    resolved_style defaults standard (heap s0) full !! key_show_barriers.
Proof.
  intros o.
  assert (Call (DrawerCanvas 3 o) ∈ new_events s0 (edraw ok_handler full s0).1)
    as Hin by in_list.
  split; [reflexivity|]. split; [exact Hin|].
  destruct (control_flags_replace_style_entries ok_handler defaults standard
              accept_all full s0 3 o eq_refl Hin) as (H1 & H2 & H3 & _).
  split; [exact H1|]. split; [exact H2|exact H3].
Defined.


Lemma save_file_iff_filename_after_render_witness :
  style_in_store (heap s0) (style full) = true /\
  filename full = Some "out.png" /\
  is_Returned (erender ok_handler full s0).2 = true /\
  Call (save_file "out.png") ∈ new_events s0 (edraw ok_handler full s0).1.
Proof.
  split; [reflexivity|]. split; [reflexivity|].
  split; [vm_compute; reflexivity|].
  apply (save_file_iff_filename_after_render ok_handler defaults standard
           accept_all full s0 eq_refl).
  split; [reflexivity|]. split; [discriminate|vm_compute; reflexivity].
Defined.

Lemma missing_matplotlib_raises_ImportError_witness :
  plotter plain = Some Plotter_MPL_value /\
  isinstance_ImportError
    (PyExn ModuleNotFoundError "No module named 'matplotlib'" None) = true /\
  (edraw no_mpl_handler plain s0).2 =
    Raised (PyExn ImportError "Must have Matplotlib installed."
                  (Some (ModuleNotFoundError, "No module named 'matplotlib'"))).
Proof.
  split; [reflexivity|]. split; [reflexivity|].
  apply (missing_matplotlib_raises_ImportError no_mpl_handler defaults
           standard accept_all plain s0 (eprepare no_mpl_handler plain s0).1 4
           (PyExn ModuleNotFoundError "No module named 'matplotlib'" None));
    [reflexivity|vm_compute; reflexivity|vm_compute; reflexivity|reflexivity].
Defined.

Lemma successful_draw_pipeline_order_witness :
  style_in_store (heap s0) (style full) = true /\
  (edraw ok_handler full s0).2 = Returned 7 /\
  plotter full = Some Plotter_MPL_value.
Proof.
  split; [reflexivity|]. split; [vm_compute; reflexivity|].
  apply (successful_draw_pipeline_order ok_handler defaults standard
           accept_all full s0 (edraw ok_handler full s0).1 7);
    [reflexivity|vm_compute; reflexivity].
Defined.

Lemma style_forms_share_resolution_witness :
  style_in_store (heap s0) (style preset_style) = true /\
  heap s0 !! 2 = Some (StyleObj IQXSimple {[ key_show_idle := VBool false ]}) /\
  merge_events (heap s0) preset_style =
    [NewQiskitTimelineStyle 3; StyleUpdate 3 2] /\
  resolved_style defaults standard (heap s0) preset_style =
    {[ key_show_idle := VBool false ]} ∪ defaults.
Proof.
  split; [reflexivity|]. split; [reflexivity|].
  destruct (style_forms_share_resolution ok_handler defaults standard
              accept_all preset_style s0 eq_refl) as (_ & _ & H).
  assert (obj_items (StyleObj IQXSimple {[ key_show_idle := VBool false ]})
          <> ∅) as Hne.
  { intros He. apply (f_equal (fun m => m !! key_show_idle)) in He.
    vm_compute in He. discriminate He. }
  exact (H 2 (StyleObj IQXSimple {[ key_show_idle := VBool false ]})
           eq_refl eq_refl Hne).
Defined.

Lemma empty_style_same_as_no_style_witness :
  style empty_style = Some 1 /\
  heap s0 !! 1 = Some (StyleObj PyDict ∅) /\
  edraw ok_handler empty_style s0 =
    edraw ok_handler (with_style empty_style None) s0.
Proof.
  split; [reflexivity|]. split; [reflexivity|].
  apply (empty_style_same_as_no_style ok_handler defaults standard accept_all
           empty_style s0).
  right. exists 1, (StyleObj PyDict ∅). repeat split; reflexivity.
Defined.

Lemma draw_never_mutates_caller_style_witness :
  style_in_store (heap s0) (style full) = true /\
  heap (edraw ok_handler full s0).1 !! 0 = heap s0 !! 0.
Proof.
  split; [reflexivity|].
  destruct (draw_never_mutates_caller_style ok_handler defaults standard
              accept_all full s0 eq_refl) as (_ & H & _).
  exact (H 0 _ eq_refl eq_refl).
Defined.

Lemma falsy_optionals_same_as_omitted_witness :
  disable_bits falsy_optionals = Some [] /\
  filename falsy_optionals = Some "" /\
  edraw ok_handler falsy_optionals s0 =
    edraw ok_handler (with_disable_bits falsy_optionals None) s0 /\
  edraw ok_handler falsy_optionals s0 =
    edraw ok_handler (with_filename falsy_optionals None) s0.
Proof.
  split; [reflexivity|]. split; [reflexivity|].
  destruct (falsy_optionals_same_as_omitted ok_handler defaults standard
              accept_all falsy_optionals s0) as [H1 H2].
  split; [exact (H1 eq_refl)|exact (H2 eq_refl)].
Defined.

Lemma every_trace_is_a_pipeline_prefix_witness :
  style_in_store (heap s0) (style full) = true /\
  new_events s0 (edraw load_fails_handler full s0).1 `prefix_of`
    expected_events defaults standard (heap s0) full.
Proof.
  split; [reflexivity|].
  apply (every_trace_is_a_pipeline_prefix load_fails_handler defaults standard
           accept_all full s0 eq_refl).
Defined.

Lemma draw_raises_only_documented_errors_witness :
  (edraw zip_import_handler plain s0).2 =
    Raised (PyExn ImportError matplotlib_msg
                  (Some (OtherError "zipimport.ZipImportError" true,
                         "bad archive"))) /\
  exists s1,
    eprepare no_mpl_handler plain s0 = (s1, Returned tt) /\
    (no_mpl_handler import_MplPlotter (world s1)).2 =
      inl (PyExn ModuleNotFoundError "No module named 'matplotlib'" None).
Proof.
  split.
  - apply (proj2 (draw_raises_only_documented_errors zip_import_handler
                    defaults standard accept_all plain s0 _)).
    exists (eprepare zip_import_handler plain s0).1.
    split; [vm_compute; reflexivity|]. right. split; [reflexivity|].
    exists (PyExn (OtherError "zipimport.ZipImportError" true)
                  "bad archive" None).
    split; [vm_compute; reflexivity|]. split; reflexivity.
  - assert ((edraw no_mpl_handler plain s0).2 =
            Raised (PyExn ImportError matplotlib_msg
                          (Some (ModuleNotFoundError,
                                 "No module named 'matplotlib'")))) as Hrun
      by (vm_compute; reflexivity).
    apply (proj1 (draw_raises_only_documented_errors no_mpl_handler
                    defaults standard accept_all plain s0 _)) in Hrun
      as (s1 & Hprep & [[Hp _]|(_ & ex & Hh & _ & He)]).
    + exfalso. apply Hp. reflexivity.
    + exists s1. split; [exact Hprep|]. rewrite Hh. f_equal.
      destruct ex as [c m [[c' m']|]]; simpl in He, Hh |- *.
      * injection He as <- <-.
        assert (s1 = (eprepare no_mpl_handler plain s0).1) as ->
          by (by rewrite Hprep).
        vm_compute in Hh. by injection Hh.
      * assert (s1 = (eprepare no_mpl_handler plain s0).1) as ->
          by (by rewrite Hprep).
        vm_compute in Hh. by injection Hh as <- <-.
Defined.

Lemma import_failure_stops_draw_witness :
  style_in_store (heap s0) (style plain) = true /\
  plotter plain = Some Plotter_MPL_value /\
  (edraw broken_import_handler plain s0).2 =
    Propagated (PyExn (OtherError "RuntimeError" false) "backend failed" None) /\
  new_events s0 (edraw broken_import_handler plain s0).1 =
    canvas_events defaults standard (heap s0) plain ++ [Call import_MplPlotter] /\
  (edraw zip_import_handler plain s0).2 =
    Raised (PyExn ImportError matplotlib_msg
                  (Some (OtherError "zipimport.ZipImportError" true,
                         "bad archive"))).
Proof.
  split; [reflexivity|]. split; [reflexivity|].
  destruct (import_failure_stops_draw broken_import_handler defaults standard
              accept_all plain s0 (eprepare broken_import_handler plain s0).1 4
              (PyExn (OtherError "RuntimeError" false) "backend failed" None))
    as (H1 & H2 & _);
    [reflexivity|reflexivity|vm_compute; reflexivity|vm_compute; reflexivity|].
  split; [exact H1|]. split; [exact H2|].
  destruct (import_failure_stops_draw zip_import_handler defaults standard
              accept_all plain s0 (eprepare zip_import_handler plain s0).1 4
              (PyExn (OtherError "zipimport.ZipImportError" true)
                     "bad archive" None))
    as (H3 & _);
    [reflexivity|reflexivity|vm_compute; reflexivity|vm_compute; reflexivity|].
  exact H3.
Defined.

Lemma save_failure_returns_no_image_witness :
  style_in_store (heap s0) (style full) = true /\
  filename full = Some "out.png" /\
  (edraw save_fails_handler full s0).2 =
    Propagated (PyExn (OtherError "PermissionError" false) "out.png" None).
Proof.
  split; [reflexivity|]. split; [reflexivity|].
  apply (save_failure_returns_no_image save_fails_handler defaults standard
           accept_all full s0 (erender save_fails_handler full s0).1
           "out.png" 13);
    [reflexivity|vm_compute; reflexivity|reflexivity|discriminate
    |vm_compute; reflexivity].
Defined.

Lemma preset_built_only_when_needed_witness :
  style_in_store (heap s0) (style plain) = true /\
  length (heap (edraw ok_handler plain s0).1) = 5.
Proof.
  split; [reflexivity|].
  destruct (preset_built_only_when_needed ok_handler defaults standard
              accept_all plain s0 eq_refl) as [_ H].
  exact H.
Defined.

Lemma setters_run_in_order_before_update_witness :
  style_in_store (heap s0) (style full) = true /\
  setters (new_events s0 (edraw ok_handler full s0).1) `prefix_of`
    [set_time_range 0 100; set_disable_bits 3 true; set_disable_bits 4 true;
     set_disable_type DELAY true; set_disable_type GATE_PARAM true;
     set_disable_type GATE_NAME true].
Proof.
  split; [reflexivity|].
  apply (setters_run_in_order_before_update ok_handler defaults standard
           accept_all full s0 eq_refl).
Defined.


Lemma draw_returns_when_nothing_fails_witness :
  (forall c w, exists w' v, ok_handler c w = (w', inr v)) /\
  style_in_store (heap s0) (style full) = true /\
  exists s' img, edraw ok_handler full s0 = (s', Returned img).
Proof.
  assert (forall c w, exists w' (v : Obj), ok_handler c w = (w', inr v)) as Hok.
  { intros c w. eexists _, _. reflexivity. }
  split; [exact Hok|]. split; [reflexivity|].
  destruct (draw_returns_when_nothing_fails ok_handler defaults standard
              accept_all full s0 Hok eq_refl eq_refl) as [H _].
  exact (H eq_refl).
Defined.

End ConcreteCalls.
